(** * Verification of the bridge model objects: [MatrixUser] and [RemoteRoom]

    A shallow embedding of [MatrixUser] (user-id parsing, localpart escaping,
    metadata bag, serialisation) and of [RemoteRoom], followed by the
    properties of the specification that concern them.

    JavaScript strings are sequences of UTF-16 code units, and the escaping
    code observes that: [new Set(string)] iterates by code point (so a
    surrogate pair is one element of two code units), [charCodeAt(0)] reads a
    code unit, and a regular expression without the [u] flag matches code unit
    by code unit.  Strings are therefore modelled as lists of code units. *)

From Stdlib Require Import NArith ZArith Ascii String List Permutation Lia.
From stdpp Require Import base option list gmap.
Import ListNotations.

Local Open Scope N_scope.
Local Open Scope list_scope.

(** ** JavaScript strings *)

Module JS.

(** A UTF-16 code unit; the values in use are below 65536. *)
Definition unit16 := N.

(** A JavaScript string. *)
Abbreviation jsstring := (list unit16).

(** The code unit of an ASCII character, and the string of an ASCII literal. *)
Definition chr (a : ascii) : unit16 := N_of_ascii a.

Definition str (s : string) : jsstring := List.map chr (list_ascii_of_string s).

(** [lo <= c <= hi], for the character classes [[A-Z]], [[a-z]], [[0-9]]. *)
Definition in_range (lo hi : ascii) (c : unit16) : bool :=
  (chr lo <=? c) && (c <=? chr hi).

(** Surrogate code units, as the string iterator tests them. *)
Definition is_high_surrogate (c : unit16) : bool := (0xD800 <=? c) && (c <=? 0xDBFF).
Definition is_low_surrogate (c : unit16) : bool := (0xDC00 <=? c) && (c <=? 0xDFFF).

(** JavaScript numbers, as far as this code looks at them: a number is only
    tested for truthiness and for its class. *)
Inductive number :=
| NaN
| Num (z : Z).

(** JSON-like values plus [undefined]: what a caller can pass as [data] and
    what can be stored in a metadata bag.  [VObject] is a plain key-value
    object, given by its own properties. *)
#[warnings="-register-all"]
Inductive value :=
| VUndefined
| VNull
| VBool (b : bool)
| VNumber (n : number)
| VString (s : jsstring)
| VArray (elems : list value)
| VObject (props : gmap jsstring value).

(** Truthiness: [undefined], [null], [false], [0], [NaN] and the empty
    string are falsy; every object (arrays included) is truthy. *)
Definition truthy (v : value) : bool :=
  match v with
  | VUndefined | VNull => false
  | VBool b => b
  | VNumber NaN => false
  | VNumber (Num z) => negb (z =? 0)%Z
  | VString s => match s with [] => false | _ :: _ => true end
  | VArray _ | VObject _ => true
  end.

(** [Object.prototype.toString.call(v)]. *)
Definition toStringTag (v : value) : string :=
  match v with
  | VUndefined => "[object Undefined]"
  | VNull => "[object Null]"
  | VBool _ => "[object Boolean]"
  | VNumber _ => "[object Number]"
  | VString _ => "[object String]"
  | VArray _ => "[object Array]"
  | VObject _ => "[object Object]"
  end.

(** Interpolation in a template literal, [`${x}`]: [undefined] is rendered
    by its name. *)
Definition interpolate (x : option jsstring) : jsstring :=
  match x with
  | Some s => s
  | None => str "undefined"
  end.

(** [s.split(sep)] for a separator of one code unit: the pieces between
    all occurrences of [sep]; never the empty array. *)
Fixpoint split (sep : unit16) (s : jsstring) : list jsstring :=
  match s with
  | [] => [[]]
  | c :: s' =>
      if c =? sep then [] :: split sep s'
      else match split sep s' with
           | piece :: pieces => (c :: piece) :: pieces
           | [] => [[c]]
           end
  end.

(** [s.substring(start)]. *)
Definition substring (start : nat) (s : jsstring) : jsstring := drop start s.

(** The code units of a string, one element each. *)
Definition units (s : jsstring) : list jsstring := List.map (λ y, [y]) s.

(** [c.charCodeAt(0)] of a non-empty string. *)
Definition charCodeAt0 (c : jsstring) : unit16 := List.hd 0 c.

(** [s.isWellFormed()]: no surrogate stands alone. *)
Fixpoint isWellFormed (s : jsstring) : bool :=
  match s with
  | [] => true
  | c :: s' =>
      if is_high_surrogate c then
        match s' with
        | d :: s'' => is_low_surrogate d && isWellFormed s''
        | [] => false
        end
      else negb (is_low_surrogate c) && isWellFormed s'
  end.

(** A well-formed element of the string iterator: one code unit that is no
    surrogate, or a high surrogate and a low one. *)
Definition is_code_point (p : jsstring) : bool :=
  match p with
  | [c] => negb (is_high_surrogate c) && negb (is_low_surrogate c)
  | [h; l] => is_high_surrogate h && is_low_surrogate l
  | _ => false
  end.

(** The string iterator: one element per code point, a high surrogate
    directly followed by a low surrogate forming a single element. *)
Fixpoint code_points (s : jsstring) : list jsstring :=
  match s with
  | [] => []
  | c :: s' =>
      match s' with
      | d :: s'' =>
          if is_high_surrogate c && is_low_surrogate d
          then [c; d] :: code_points s''
          else [c] :: code_points s'
      | [] => [[c]]
      end
  end.

(** A [Set] of strings keeps its elements in insertion order; [add] ignores
    an element that is already present. *)
Definition Set_add (S : list jsstring) (x : jsstring) : list jsstring :=
  if bool_decide (x ∈ S) then S else S ++ [x].

(** [new Set(iterable)]. *)
Definition Set_of (xs : list jsstring) : list jsstring :=
  fold_left Set_add xs [].

(** A hexadecimal digit character: a decimal digit or one of ['a'..'f']. *)
Definition is_hex_char (c : unit16) : bool :=
  in_range "0" "9" c || in_range "a" "f" c.

(** The digit characters of [toString(16)]: ['0'..'9'], ['a'..'f']. *)
Definition hex_digit (d : N) : unit16 :=
  if d <? 10 then chr "0" + d else chr "a" + (d - 10).

Fixpoint toString16_aux (fuel : nat) (n : N) (acc : jsstring) : jsstring :=
  match fuel with
  | O => acc
  | S fuel' =>
      let acc' := hex_digit (n mod 16) :: acc in
      if n / 16 =? 0 then acc' else toString16_aux fuel' (n / 16) acc'
  end.

(** [n.toString(16)] for a non-negative integer: no padding, no prefix.
    A number has at most [log2 n + 1] hexadecimal digits. *)
Definition toString16 (n : N) : jsstring :=
  toString16_aux (S (N.to_nat (N.log2 n))) n [].

(** [s.toLowerCase()], on ASCII; it is applied to hexadecimal digits only. *)
Definition toLowerCase (s : jsstring) : jsstring :=
  List.map (fun c => if in_range "A" "Z" c then c + 32 else c) s.

Fixpoint is_prefix (pat s : jsstring) : bool :=
  match pat, s with
  | [], _ => true
  | p :: pat', c :: s' => (p =? c) && is_prefix pat' s'
  | _ :: _, [] => false
  end.

(** Replacement of every match of a literal, non-empty pattern, scanning
    from the left and resuming after each match; [skip] counts the code
    units of the current match still to be consumed. *)
Fixpoint replace_from (pat rep : jsstring) (skip : nat) (s : jsstring) : jsstring :=
  match s with
  | [] => []
  | c :: s' =>
      match skip with
      | S skip' => replace_from pat rep skip' s'
      | O =>
          if is_prefix pat s
          then rep ++ replace_from pat rep (length pat - 1) s'
          else c :: replace_from pat rep 0 s'
      end
  end.

(** [s.replace(new RegExp(`\\${c}`, "g"), rep)] for a string [c] that starts
    with neither a letter nor a digit: the backslash then is an identity
    escape, the pattern has no [u] flag and so matches code unit by code
    unit, and [rep] holds no [$]. *)
Definition replace_g (c rep s : jsstring) : jsstring := replace_from c rep 0 s.

(** What a [throw new Error(message)] carries. *)
Inductive error :=
| Error (message : string).

(** The outcome of running a function body on the receiver [this]: it
    returns normally, or it throws and leaves the receiver as it was at the
    [throw]. *)
Inductive completion (A : Type) :=
| Return (this : A)
| Throw (e : error) (this : A).

Arguments Return {A} this.
Arguments Throw {A} e this.

(** The names of the properties that a plain object inherits from
    [Object.prototype]. *)
Definition Object_prototype : list jsstring :=
  [str "constructor"; str "__defineGetter__"; str "__defineSetter__";
   str "hasOwnProperty"; str "__lookupGetter__"; str "__lookupSetter__";
   str "isPrototypeOf"; str "propertyIsEnumerable"; str "toString";
   str "valueOf"; str "__proto__"; str "toLocaleString"].

(** What reading a property gives: a value of the model, or the built-in
    that [Object.prototype] holds under that name (a function; the prototype
    itself for [__proto__]). *)
Inductive read :=
| Value (v : value)
| Builtin (name : jsstring).

(** [o[key]] for a plain object [o] with the own properties [props]: the own
    property if there is one, else the inherited one, else [undefined]. *)
Definition get_property (props : gmap jsstring value) (key : jsstring) : read :=
  match props !! key with
  | Some v => Value v
  | None =>
      if bool_decide (key ∈ Object_prototype) then Builtin key
      else Value VUndefined
  end.

End JS.

(** ** MatrixUser *)

Module MatrixUser.
Import JS.

(** The fields of an instance.  [host] is [undefined] when the user id has
    no colon.  [_data] is the metadata bag: a plain object used as a map
    from property names to values, given by its own properties. *)
Record instance := mk {
  userId : jsstring;
  localpart : jsstring;
  host : option jsstring;
  _data : gmap jsstring value
}.

Definition set_userId (v : jsstring) (this : instance) : instance :=
  mk v (localpart this) (host this) (_data this).
Definition set_localpart (v : jsstring) (this : instance) : instance :=
  mk (userId this) v (host this) (_data this).
Definition set_host (v : option jsstring) (this : instance) : instance :=
  mk (userId this) (localpart this) v (_data this).
Definition set__data (v : gmap jsstring value) (this : instance) : instance :=
  mk (userId this) (localpart this) (host this) v.

(** The class of the first regular expression,
    [([A-Z]|[a-z]|[0-9]|-|\.|=|_)]. *)
Definition allowed (c : unit16) : bool :=
  in_range "A" "Z" c || in_range "a" "z" c || in_range "0" "9" c
  || (c =? chr "-") || (c =? chr ".") || (c =? chr "=") || (c =? chr "_").

(** [localpart.replace(/([A-Z]|[a-z]|[0-9]|-|\.|=|_)+/g, '')]: every maximal
    run of allowed code units is deleted, the others stay in order. *)
Definition strip_allowed (s : jsstring) : jsstring :=
  List.filter (fun c => negb (allowed c)) s.

(** [badChars]: the distinct elements of the stripped string, in the order
    of their first occurrence. *)
Definition badChars (s : jsstring) : list jsstring :=
  Set_of (code_points (strip_allowed s)).

(** The body of the [forEach] callback. *)
Definition escape_step (res c : jsstring) : jsstring :=
  let hex := toLowerCase (toString16 (charCodeAt0 c)) in
  replace_g c (str "=" ++ hex) res.

(** [badChars.forEach(...)] for a given iteration order, from [res]. *)
Definition escape_with (order : list jsstring) (res : jsstring) : jsstring :=
  fold_left escape_step order res.

(** The escape sequence the callback writes for a code unit [c]: [=] and
    the hexadecimal form of [c]. *)
Definition quoted (c : unit16) : jsstring := str "=" ++ toString16 c.

(** Escaping code unit by code unit: the closed form that the loop is
    compared with. *)
Definition escape_units (s : jsstring) : jsstring :=
  List.flat_map (λ c, if allowed c then [c] else quoted c) s.

(** An element of the string iterator is bad unless it is one allowed code
    unit. *)
Definition bad (p : jsstring) : bool :=
  match p with
  | [c] => negb (allowed c)
  | _ => true
  end.

(** Escaping code point by code point. *)
Definition escape_points (s : jsstring) : jsstring :=
  List.concat (List.map (λ p, if bad p then quoted (charCodeAt0 p) else p)
                 (code_points s)).

Definition escapeUserId (this : instance) : instance :=
  let badChars := badChars (localpart this) in
  let res := escape_with badChars (localpart this) in
  let this := set_localpart res this in
  set_userId (str "@" ++ localpart this ++ str ":" ++ interpolate (host this)) this.

(** The constructor body, run on the receiver [this] ([new] supplies a fresh
    object).  [userId] and [escape] are [None] when the argument is omitted;
    [!userId] holds of an omitted and of an empty string.  [ESCAPE_DEFAULT]
    is the value of the static flag at the time of the call; it is used when
    the [escape] argument is omitted. *)
Definition MatrixUser (ESCAPE_DEFAULT : bool) (this : instance)
    (userId : option jsstring) (data : value) (escape : option bool)
    : completion instance :=
  let escape := default ESCAPE_DEFAULT escape in
  match userId with
  | None | Some [] => Throw (Error "Missing user_id") this
  | Some userId =>
      if truthy data && negb (String.eqb (toStringTag data) "[object Object]")
      then Throw (Error "data arg must be an Object") this
      else
        let this := set_userId userId this in
        let split := split (chr ":") (MatrixUser.userId this) in
        let this := set_localpart (substring 1 (List.nth 0 split [])) this in
        let this := set_host (split !! 1%nat) this in
        let this := if escape then escapeUserId this else this in
        (* data || {} : past the guard, a truthy [data] is a plain object *)
        let this := set__data (match data with VObject props => props | _ => ∅ end) this in
        Return this
  end.

Definition getId (this : instance) : jsstring := userId this.

(** [this._data[key] = val].  For the key [__proto__] the assignment goes to
    the setter that a plain object inherits: it creates no own property (it
    only replaces the prototype of the bag when [val] is an object or
    [null], and the bag, given by its own properties, does not record
    that), so the own properties stay as they are. *)
Definition set (key : jsstring) (val : value) (this : instance) : instance :=
  if bool_decide (key = str "__proto__") then this
  else set__data (<[key := val]> (_data this)) this.

(** [serialize] writes into the bag and returns it: the result is the
    returned mapping together with the instance after the call. *)
Definition serialize (this : instance) : gmap jsstring value * instance :=
  let this := set__data (<[str "localpart" := VString (localpart this)]> (_data this)) this in
  (_data this, this).

Definition getDisplayName (this : instance) : read :=
  get_property (_data this) (str "displayName").

Definition setDisplayName (name : value) (this : instance) : instance :=
  set__data (<[str "displayName" := name]> (_data this)) this.

Definition get (key : jsstring) (this : instance) : read :=
  get_property (_data this) key.

End MatrixUser.

(** ** RemoteRoom *)

Module RemoteRoom.
Import JS.

Record instance := mk {
  roomId : option jsstring;
  data : value
}.

(** The constructor body on the receiver [this]; it has no [throw]. *)
Definition RemoteRoom (this : instance) (identifier : option jsstring) (data : value)
    : completion instance :=
  let this := mk identifier (RemoteRoom.data this) in
  let this := mk (roomId this) (if truthy data then data else VObject ∅) in
  Return this.

Definition getId (this : instance) : option jsstring := roomId this.

Definition serialize (this : instance) : value := data this.

(** [this.data[key]].  The constructor keeps any truthy [data]; property
    access is modelled for a plain object only, and the result is [None] for
    an array or a primitive. *)
Definition get (key : jsstring) (this : instance) : option read :=
  match data this with
  | VObject props => Some (get_property props key)
  | _ => None
  end.

(** [this.data[key] = val], for a plain object and a key other than
    [__proto__] (that assignment sets the prototype and creates no own
    property); [None] outside this domain. *)
Definition set (key : jsstring) (val : value) (this : instance) : option instance :=
  match data this with
  | VObject props =>
      if bool_decide (key = str "__proto__") then None
      else Some (mk (roomId this) (VObject (<[key := val]> props)))
  | _ => None
  end.

End RemoteRoom.

(** ** The specification's reading of the escaping and of the split

    These definitions follow the words of the specification, not the code;
    the code is compared with them below. *)

Module Spec.
Import JS.

(** The allowed set as the specification lists it: the class of the code
    and the slash. *)
Definition allowed (c : unit16) : bool :=
  MatrixUser.allowed c || (c =? chr "/").

(** [=] followed by two lowercase hexadecimal digits, the high one first. *)
Definition two_digit_escape (c : unit16) : jsstring :=
  [chr "="; hex_digit (c / 16); hex_digit (c mod 16)].

(** Every occurrence of a character outside the allowed set replaced by its
    two-digit escape. *)
Definition escape (s : jsstring) : jsstring :=
  List.flat_map (λ c, if allowed c then [c] else two_digit_escape c) s.

(** A split on the first colon only: what precedes it, and all that follows
    it, later colons included. *)
Fixpoint split_first (s : jsstring) : jsstring * option jsstring :=
  match s with
  | [] => ([], None)
  | c :: s' =>
      if c =? chr ":" then ([], Some s')
      else let '(before, after) := split_first s' in (c :: before, after)
  end.

(** A string without a colon. *)
Definition no_colon (s : jsstring) : bool :=
  forallb (λ c, negb (c =? chr ":")) s.

(** The invariant [userId == "@" + localpart + ":" + host]; string
    concatenation renders an [undefined] host by its name. *)
Definition invariant (u : MatrixUser.instance) : Prop :=
  MatrixUser.userId u =
    str "@" ++ MatrixUser.localpart u ++ str ":" ++ interpolate (MatrixUser.host u).

End Spec.

(** * Properties *)

(** ** The model on the examples of the specification *)

Section Examples.
Import JS MatrixUser.

Example toString16_examples :
  toString16 0 = str "0" ∧ toString16 9 = str "9" ∧ toString16 0x20 = str "20"
  ∧ toString16 0xFF = str "ff" ∧ toString16 0x100 = str "100"
  ∧ toString16 0xFFFF = str "ffff".
Proof. repeat split. Qed.

Example split_examples :
  split (chr ":") (str "@a:b") = [str "@a"; str "b"]
  ∧ split (chr ":") (str "@a") = [str "@a"]
  ∧ split (chr ":") (str "@a:b:c") = [str "@a"; str "b"; str "c"]
  ∧ split (chr ":") (str ":") = [[]; []].
Proof. repeat split. Qed.

Example code_points_example :
  code_points [0x61; 0xD83D; 0xDE00; 0xDE00; 0xD83D] =
    [[0x61]; [0xD83D; 0xDE00]; [0xDE00]; [0xD83D]].
Proof. reflexivity. Qed.

Example badChars_example :
  badChars (str "a b!c d") = [str " "; str "!"].
Proof. reflexivity. Qed.

(** [@foo bar:example.com] with escaping: the space becomes [=20]. *)
Example construct_foo_bar (this : instance) :
  MatrixUser true this (Some (str "@foo bar:example.com")) VUndefined None =
    Return (mk (str "@foo=20bar:example.com") (str "foo=20bar")
              (Some (str "example.com")) ∅).
Proof. reflexivity. Qed.

(** [@already.valid_123:example.com] with escaping: nothing changes. *)
Example construct_already_valid (this : instance) :
  MatrixUser true this (Some (str "@already.valid_123:example.com")) VUndefined None =
    Return (mk (str "@already.valid_123:example.com") (str "already.valid_123")
              (Some (str "example.com")) ∅).
Proof. reflexivity. Qed.

(** Without escaping the localpart and the user id stay as supplied. *)
Example construct_unescaped (this : instance) :
  MatrixUser true this (Some (str "@foo bar:example.com")) VUndefined (Some false) =
    Return (mk (str "@foo bar:example.com") (str "foo bar")
              (Some (str "example.com")) ∅).
Proof. reflexivity. Qed.

(** The static flag decides when the argument is omitted. *)
Example construct_default_off (this : instance) :
  MatrixUser false this (Some (str "@foo bar:example.com")) VUndefined None =
    Return (mk (str "@foo bar:example.com") (str "foo bar")
              (Some (str "example.com")) ∅).
Proof. reflexivity. Qed.

(** No colon: the host is [undefined], and escaping writes it by name. *)
Example construct_no_colon (this : instance) :
  MatrixUser true this (Some (str "@alice")) VUndefined (Some false) =
    Return (mk (str "@alice") (str "alice") None ∅)
  ∧ MatrixUser true this (Some (str "@alice")) VUndefined (Some true) =
    Return (mk (str "@alice:undefined") (str "alice") None ∅).
Proof. split; reflexivity. Qed.

End Examples.

(** ** Facts about the string primitives *)

Section StringFacts.
Import JS.

Lemma flat_map_ext_Forall {A B} (f g : A → list B) (l : list A) :
  Forall (λ x, f x = g x) l → List.flat_map f l = List.flat_map g l.
Proof.
  induction 1 as [|x l Hx _ IH]; simpl; [done|].
  by rewrite Hx, IH.
Qed.

Lemma forallb_Forall {A} (f : A → bool) (l : list A) :
  forallb f l = true → Forall (λ x, f x = true) l.
Proof.
  induction l as [|x l IH]; simpl; [constructor|].
  intros [Hx Hl]%andb_true_iff. constructor; auto.
Qed.

Lemma elem_of_fold_Set_add (x : jsstring) (xs acc : list jsstring) :
  x ∈ fold_left Set_add xs acc ↔ x ∈ acc ∨ x ∈ xs.
Proof.
  revert acc. induction xs as [|y xs IH]; intros acc; simpl.
  - rewrite elem_of_nil. tauto.
  - rewrite IH. unfold Set_add. rewrite elem_of_cons.
    case_bool_decide as Hy.
    + split; [tauto|]. intros [?|[->|?]]; tauto.
    + rewrite elem_of_app, list_elem_of_singleton. tauto.
Qed.

(** A set built from a sequence has the elements of the sequence. *)
Lemma elem_of_Set_of (x : jsstring) (xs : list jsstring) :
  x ∈ Set_of xs ↔ x ∈ xs.
Proof.
  unfold Set_of. rewrite elem_of_fold_Set_add, elem_of_nil. tauto.
Qed.

Lemma NoDup_fold_Set_add (xs acc : list jsstring) :
  NoDup acc → NoDup (fold_left Set_add xs acc).
Proof.
  revert acc. induction xs as [|y xs IH]; intros acc Hacc; simpl; [done|].
  apply IH. unfold Set_add. case_bool_decide as Hy; [done|].
  apply NoDup_app. split_and!; [done| |apply NoDup_singleton].
  intros z Hz ->%list_elem_of_singleton. contradiction.
Qed.

(** A set holds each element once. *)
Lemma NoDup_Set_of (xs : list jsstring) : NoDup (Set_of xs).
Proof. apply NoDup_fold_Set_add, NoDup_nil_2. Qed.

Lemma in_range_spec (lo hi : ascii) (c : unit16) :
  in_range lo hi c = true ↔ chr lo ≤ c ∧ c ≤ chr hi.
Proof. unfold in_range. by rewrite andb_true_iff, !N.leb_le. Qed.

Lemma hex_digit_is_hex_char (d : N) : d < 16 → is_hex_char (hex_digit d) = true.
Proof.
  intros Hd.
  assert (d = 0 ∨ d = 1 ∨ d = 2 ∨ d = 3 ∨ d = 4 ∨ d = 5 ∨ d = 6 ∨ d = 7 ∨
          d = 8 ∨ d = 9 ∨ d = 10 ∨ d = 11 ∨ d = 12 ∨ d = 13 ∨ d = 14 ∨ d = 15)
    as H by lia.
  repeat destruct H as [->|H]; try subst d; reflexivity.
Qed.

Lemma toString16_aux_hex (fuel : nat) (n : N) (acc : jsstring) :
  Forall (λ c, is_hex_char c = true) acc →
  Forall (λ c, is_hex_char c = true) (toString16_aux fuel n acc).
Proof.
  revert n acc. induction fuel as [|fuel IH]; intros n acc Hacc; simpl; [done|].
  assert (Forall (λ c, is_hex_char c = true) (hex_digit (n mod 16) :: acc)) as H.
  { constructor; [|done]. apply hex_digit_is_hex_char, N.mod_lt. lia. }
  destruct (n / 16 =? 0); [done|]. by apply IH.
Qed.

(** [toString(16)] produces hexadecimal digits only. *)
Lemma toString16_hex (n : N) : Forall (λ c, is_hex_char c = true) (toString16 n).
Proof. apply toString16_aux_hex. constructor. Qed.

Lemma log2_div16 (n : N) : n / 16 ≠ 0 → N.log2 (n / 16) < N.log2 n.
Proof.
  intros Hn. change 16 with (2 ^ 4). rewrite <-N.shiftr_div_pow2, N.log2_shiftr.
  assert (16 ≤ n) as H16.
  { destruct (N.le_gt_cases 16 n) as [?|Hlt]; [done|].
    by apply N.div_small in Hlt. }
  assert (N.log2 16 ≤ N.log2 n) as Hlog by by apply N.log2_le_mono.
  change (N.log2 16) with 4 in Hlog. lia.
Qed.

(** The fuel of [toString16] is enough: more fuel gives the same digits. *)
Lemma toString16_aux_fuel (fuel1 fuel2 : nat) (n : N) (acc : jsstring) :
  N.log2 n < N.of_nat fuel1 → N.log2 n < N.of_nat fuel2 →
  toString16_aux fuel1 n acc = toString16_aux fuel2 n acc.
Proof.
  revert fuel2 n acc.
  induction fuel1 as [|fuel1 IH]; intros fuel2 n acc H1 H2; [lia|].
  destruct fuel2 as [|fuel2]; [lia|].
  cbn [toString16_aux].
  destruct (N.eqb_spec (n / 16) 0) as [|Hne]; [done|].
  pose proof (log2_div16 n Hne) as Hlog.
  apply IH; lia.
Qed.

Lemma toString16_fuel (fuel : nat) (n : N) :
  N.log2 n < N.of_nat fuel → toString16_aux fuel n [] = toString16 n.
Proof. intros H. apply toString16_aux_fuel; lia. Qed.

Lemma is_hex_char_bounds (c : unit16) :
  is_hex_char c = true → (48 ≤ c ∧ c ≤ 57) ∨ (97 ≤ c ∧ c ≤ 102).
Proof.
  unfold is_hex_char. rewrite orb_true_iff, !in_range_spec.
  unfold chr. simpl N_of_ascii. lia.
Qed.

(** Hexadecimal digits are already in lower case. *)
Lemma toLowerCase_toString16 (n : N) : toLowerCase (toString16 n) = toString16 n.
Proof.
  unfold toLowerCase.
  induction (toString16_hex n) as [|c l Hc _ IH]; simpl; [done|].
  rewrite IH. apply is_hex_char_bounds in Hc.
  replace (in_range "A" "Z" c) with false; [done|].
  symmetry. apply not_true_is_false. rewrite in_range_spec.
  unfold chr. simpl N_of_ascii. lia.
Qed.

(** Between [0x10] and [0xff] the hexadecimal form has exactly two digits. *)
Lemma toString16_two_digits (c : N) :
  16 ≤ c → c ≤ 255 →
  toString16 c = [hex_digit (c / 16); hex_digit (c mod 16)].
Proof.
  intros Hlo Hhi. unfold toString16.
  assert (4 ≤ N.log2 c) as Hlog.
  { change 4 with (N.log2 16). by apply N.log2_le_mono. }
  destruct (N.to_nat (N.log2 c)) as [|k] eqn:Hk; [lia|].
  assert (1 ≤ c / 16) as H1.
  { change 1 with (16 / 16). apply N.Div0.div_le_mono. lia. }
  assert (c / 16 < 16) as H2 by (apply N.Div0.div_lt_upper_bound; lia).
  cbn [toString16_aux].
  destruct (N.eqb_spec (c / 16) 0); [lia|].
  rewrite (N.div_small (c / 16) 16), (N.mod_small (c / 16) 16) by lia.
  reflexivity.
Qed.

End StringFacts.

(** ** Facts about code points and replacement *)

Section CodePointFacts.
Import JS.

(** Induction two code units at a time, as the string iterator recurses. *)
Lemma list_pair_ind {A} (P : list A → Prop) :
  P [] → (∀ x, P [x]) → (∀ x y l, P l → P (y :: l) → P (x :: y :: l)) →
  ∀ l, P l.
Proof.
  intros Hnil Hone Hstep l.
  enough (P l ∧ ∀ x, P (x :: l)) as [H _] by exact H.
  induction l as [|y l [IH1 IH2]]; [by split|].
  split; [apply IH2|]. intros x. by apply Hstep.
Qed.

Lemma surrogates_disjoint (c : unit16) :
  is_high_surrogate c = true → is_low_surrogate c = false.
Proof.
  unfold is_high_surrogate, is_low_surrogate.
  rewrite andb_true_iff, andb_false_iff, !N.leb_le, !N.leb_gt. lia.
Qed.

Lemma code_points_cons (c : unit16) (s : jsstring) :
  is_high_surrogate c = false → code_points (c :: s) = [c] :: code_points s.
Proof. intros Hc. destruct s as [|d s]; [done|]. simpl. by rewrite Hc. Qed.

Lemma code_points_pair (h l : unit16) (s : jsstring) :
  is_high_surrogate h = true → is_low_surrogate l = true →
  code_points (h :: l :: s) = [h; l] :: code_points s.
Proof. intros Hh Hl. simpl. by rewrite Hh, Hl. Qed.

(** The string iterator cuts the string into pieces. *)
Lemma concat_code_points (s : jsstring) : List.concat (code_points s) = s.
Proof.
  induction s as [| |c d s IH1 IH2] using list_pair_ind; [done..|].
  change (code_points (c :: d :: s)) with
    (if is_high_surrogate c && is_low_surrogate d
     then [c; d] :: code_points s else [c] :: code_points (d :: s)).
  destruct (is_high_surrogate c && is_low_surrogate d); simpl in *; congruence.
Qed.

(** In a well-formed string every piece is a code point. *)
Lemma code_points_well_formed (s : jsstring) :
  isWellFormed s = true → Forall (λ p, is_code_point p = true) (code_points s).
Proof.
  induction s as [|c|c d s IH1 IH2] using list_pair_ind.
  - constructor.
  - simpl. destruct (is_high_surrogate c) eqn:Hc; [done|].
    rewrite andb_true_r. intros Hl. repeat constructor. simpl. by rewrite Hc, Hl.
  - change (isWellFormed (c :: d :: s)) with
      (if is_high_surrogate c then is_low_surrogate d && isWellFormed s
       else negb (is_low_surrogate c) && isWellFormed (d :: s)).
    destruct (is_high_surrogate c) eqn:Hc.
    + intros [Hd Hs]%andb_true_iff. rewrite code_points_pair by done.
      constructor; [|by apply IH1]. simpl. by rewrite Hc, Hd.
    + intros [Hl Hs]%andb_true_iff. rewrite code_points_cons by done.
      constructor; [|by apply IH2]. simpl. by rewrite Hc, Hl.
Qed.

Lemma replace_from_mismatch (pat rep : jsstring) (c : unit16) (s : jsstring) :
  is_prefix pat (c :: s) = false →
  replace_from pat rep 0 (c :: s) = c :: replace_from pat rep 0 s.
Proof. intros H. simpl replace_from. by rewrite H. Qed.

Lemma is_prefix_head (p : unit16) (pat : jsstring) (c : unit16) (s : jsstring) :
  p ≠ c → is_prefix (p :: pat) (c :: s) = false.
Proof. intros H. simpl. by apply N.eqb_neq in H as ->. Qed.

(** On a sequence of code points, replacing a code point acts on each
    element separately: a match cannot straddle two elements. *)
Lemma replace_g_code_points (p rep : jsstring) (chunks : list jsstring) :
  is_code_point p = true →
  Forall (λ q, is_code_point q = true) chunks →
  replace_g p rep (List.concat chunks) =
    List.concat (List.map (λ q, if bool_decide (q = p) then rep else q) chunks).
Proof.
  intros Hp Hchunks. unfold replace_g.
  induction Hchunks as [|q chunks Hq _ IH]; [done|].
  cbn [List.map List.concat]. rewrite <-IH. clear IH.
  destruct q as [|c [|l [|]]]; try discriminate Hq;
    destruct p as [|c0 [|l0 [|]]]; try discriminate Hp;
    simpl in Hq, Hp;
    repeat match goal with
           | H : _ && _ = true |- _ => apply andb_true_iff in H as [? ?]
           | H : negb _ = true |- _ => apply negb_true_iff in H
           end;
    cbn [app].
  - (* a unit against a unit *)
    case_bool_decide as Heq.
    + injection Heq as ->. simpl. by rewrite N.eqb_refl.
    + rewrite replace_from_mismatch; [done|].
      apply is_prefix_head. congruence.
  - (* a unit against a pair *)
    rewrite bool_decide_false by done.
    rewrite replace_from_mismatch; [done|].
    apply is_prefix_head. congruence.
  - (* a pair against a unit *)
    rewrite bool_decide_false by done.
    rewrite !replace_from_mismatch; [done|..];
      apply is_prefix_head; congruence.
  - (* a pair against a pair *)
    case_bool_decide as Heq.
    + injection Heq as -> ->. simpl. by rewrite !N.eqb_refl.
    + assert (is_low_surrogate c0 = false) by by apply surrogates_disjoint.
      rewrite replace_from_mismatch.
      * rewrite replace_from_mismatch; [done|]. apply is_prefix_head. congruence.
      * simpl. destruct (N.eqb_spec c0 c) as [->|]; [|done].
        by destruct (N.eqb_spec l0 l) as [->|].
Qed.

End CodePointFacts.

(** ** Facts about the escaping loop *)

Section EscapeFacts.
Import JS MatrixUser.

Lemma allowed_bound (c : unit16) : allowed c = true → c ≤ 122.
Proof.
  unfold allowed. rewrite !orb_true_iff, !in_range_spec, !N.eqb_eq.
  unfold chr. simpl N_of_ascii. lia.
Qed.

(** No surrogate is an allowed code unit. *)
Lemma allowed_not_surrogate (c : unit16) :
  allowed c = true → is_high_surrogate c = false ∧ is_low_surrogate c = false.
Proof.
  intros Hc%allowed_bound. unfold is_high_surrogate, is_low_surrogate.
  rewrite !andb_false_iff, !N.leb_gt. lia.
Qed.

Lemma high_surrogate_not_allowed (c : unit16) :
  is_high_surrogate c = true → allowed c = false.
Proof.
  intros Hc. apply not_true_is_false. intros [? _]%allowed_not_surrogate. congruence.
Qed.

Lemma low_surrogate_not_allowed (c : unit16) :
  is_low_surrogate c = true → allowed c = false.
Proof.
  intros Hc. apply not_true_is_false. intros [_ ?]%allowed_not_surrogate. congruence.
Qed.

Lemma is_hex_char_allowed (c : unit16) : is_hex_char c = true → allowed c = true.
Proof.
  intros [H|H]%is_hex_char_bounds; unfold allowed.
  - replace (in_range "0" "9" c) with true; [by rewrite !orb_true_r|].
    symmetry. rewrite in_range_spec. unfold chr. simpl N_of_ascii. lia.
  - replace (in_range "a" "z" c) with true; [by rewrite !orb_true_r|].
    symmetry. rewrite in_range_spec. unfold chr. simpl N_of_ascii. lia.
Qed.

(** An escape sequence consists of allowed code units. *)
Lemma quoted_allowed (c : unit16) : Forall (λ y, allowed y = true) (quoted c).
Proof.
  unfold quoted. simpl. constructor; [reflexivity|].
  eapply Forall_impl; [apply toString16_hex|]. apply is_hex_char_allowed.
Qed.

Lemma concat_map_flat_map {A B C} (f : B → list C) (h : A → list B) (l : list A) :
  List.concat (List.map f (List.flat_map h l)) =
    List.concat (List.map (λ x, List.concat (List.map f (h x))) l).
Proof.
  induction l as [|x l IH]; simpl; [done|].
  by rewrite List.map_app, concat_app, IH.
Qed.

Lemma concat_flat_map {A B} (h : A → list (list B)) (l : list A) :
  List.concat (List.flat_map h l) = List.concat (List.map (λ x, List.concat (h x)) l).
Proof.
  induction l as [|x l IH]; simpl; [done|]. by rewrite concat_app, IH.
Qed.

Lemma concat_map_id_Forall {A} (f : list A → list A) (l : list (list A)) :
  Forall (λ x, f x = x) l → List.concat (List.map f l) = List.concat l.
Proof.
  induction 1 as [|x l Hx _ IH]; simpl; [done|]. by rewrite Hx, IH.
Qed.

Lemma concat_map_ext_Forall {A B} (f g : A → list B) (l : list A) :
  Forall (λ x, f x = g x) l →
  List.concat (List.map f l) = List.concat (List.map g l).
Proof.
  induction 1 as [|x l Hx _ IH]; simpl; [done|]. by rewrite Hx, IH.
Qed.

Lemma concat_units (s : jsstring) : List.concat (units s) = s.
Proof. induction s as [|y s IH]; simpl; [done|]. by rewrite IH. Qed.

(** One step of the loop on a sequence of code points. *)
Lemma escape_step_code_points (p : jsstring) (chunks : list jsstring) :
  is_code_point p = true →
  Forall (λ q, is_code_point q = true) chunks →
  escape_step (List.concat chunks) p =
    List.concat
      (List.map (λ q, if bool_decide (q = p) then quoted (charCodeAt0 p) else q) chunks).
Proof.
  intros Hp Hchunks. unfold escape_step, quoted.
  by rewrite toLowerCase_toString16, replace_g_code_points.
Qed.

(** The loop over bad code points, in any order and on any sequence of code
    points: an element is quoted when it is in the list, and kept
    otherwise. *)
Lemma escape_with_code_points (order chunks : list jsstring) :
  Forall (λ p, is_code_point p = true ∧ bad p = true) order →
  Forall (λ q, is_code_point q = true) chunks →
  escape_with order (List.concat chunks) =
    List.concat
      (List.map (λ q, if bool_decide (q ∈ order) then quoted (charCodeAt0 q) else q)
         chunks).
Proof.
  intros Horder. revert chunks.
  induction Horder as [|p order [Hp Hbad] Horder IH]; intros chunks Hchunks.
  - symmetry. apply concat_map_id_Forall, Forall_forall. by intros q _.
  - change (escape_with (p :: order) (List.concat chunks))
      with (escape_with order (escape_step (List.concat chunks) p)).
    rewrite escape_step_code_points by done.
    pose (h := λ q : jsstring,
            if bool_decide (q = p) then units (quoted (charCodeAt0 p)) else [q]).
    assert (List.concat
              (List.map (λ q, if bool_decide (q = p) then quoted (charCodeAt0 p) else q)
                 chunks) = List.concat (List.flat_map h chunks)) as ->.
    { rewrite concat_flat_map.
      apply concat_map_ext_Forall, Forall_forall. intros q _. unfold h.
      case_bool_decide; [by rewrite concat_units|].
      simpl. by rewrite app_nil_r. }
    assert (Forall (λ y : jsstring, is_code_point y = true ∧ bad y = false)
              (units (quoted (charCodeAt0 p)))) as Hunits.
    { unfold units. apply Forall_forall. intros y Hy.
      apply list_elem_of_In, in_map_iff in Hy as (a & <- & Ha).
      pose proof (quoted_allowed (charCodeAt0 p)) as Hq.
      rewrite Forall_forall in Hq. apply list_elem_of_In, Hq in Ha.
      destruct (allowed_not_surrogate _ Ha) as [Hh Hl].
      simpl. by rewrite Hh, Hl, Ha. }
    rewrite IH.
    + rewrite concat_map_flat_map.
      apply concat_map_ext_Forall, Forall_forall. intros q _. unfold h.
      case_bool_decide as Hqp.
      * subst q. rewrite (bool_decide_true (p ∈ p :: order)) by (apply elem_of_cons; by left).
        rewrite concat_map_id_Forall; [apply concat_units|].
        eapply Forall_impl; [exact Hunits|]. intros y [_ Hy]. cbv beta.
        rewrite bool_decide_false; [done|]. intros Hin.
        rewrite Forall_forall in Horder. destruct (Horder _ Hin). congruence.
      * simpl. rewrite app_nil_r.
        rewrite (bool_decide_ext (q ∈ p :: order) (q ∈ order)); [done|].
        rewrite elem_of_cons. tauto.
    + apply Forall_forall. intros y Hy.
      apply list_elem_of_In, in_flat_map in Hy as (q & Hq & Hy). unfold h in Hy.
      case_bool_decide.
      * rewrite Forall_forall in Hunits. by apply Hunits, list_elem_of_In.
      * destruct Hy as [<-|[]]. rewrite Forall_forall in Hchunks.
        by apply Hchunks, list_elem_of_In.
Qed.

Lemma strip_allowed_cons (c : unit16) (s : jsstring) :
  strip_allowed (c :: s) =
    if allowed c then strip_allowed s else c :: strip_allowed s.
Proof. unfold strip_allowed. simpl. by destruct (allowed c). Qed.

(** Stripping the allowed code units of a well-formed string leaves its bad
    code points. *)
Lemma code_points_strip_allowed (s : jsstring) :
  isWellFormed s = true →
  code_points (strip_allowed s) = List.filter bad (code_points s).
Proof.
  induction s as [|c|c d s IH1 IH2] using list_pair_ind.
  - done.
  - intros _. rewrite strip_allowed_cons. simpl. by destruct (allowed c).
  - change (isWellFormed (c :: d :: s)) with
      (if is_high_surrogate c then is_low_surrogate d && isWellFormed s
       else negb (is_low_surrogate c) && isWellFormed (d :: s)).
    destruct (is_high_surrogate c) eqn:Hc.
    + intros [Hd Hs]%andb_true_iff.
      rewrite (code_points_pair c d s) by done.
      rewrite !strip_allowed_cons.
      rewrite (high_surrogate_not_allowed c), (low_surrogate_not_allowed d) by done.
      rewrite code_points_pair by done. cbn [List.filter bad]. by rewrite IH1.
    + intros [Hl Hs]%andb_true_iff.
      rewrite (code_points_cons c (d :: s)) by done.
      rewrite (strip_allowed_cons c). cbn [List.filter bad].
      destruct (allowed c); cbn [negb]; [by apply IH2|].
      rewrite code_points_cons by done. by rewrite IH2.
Qed.

(** The bad characters of a well-formed string are its bad code points. *)
Lemma elem_of_badChars (p s : jsstring) :
  isWellFormed s = true →
  p ∈ badChars s ↔ p ∈ code_points s ∧ bad p = true.
Proof.
  intros Hs. unfold badChars.
  rewrite elem_of_Set_of, code_points_strip_allowed by done.
  by rewrite !list_elem_of_In, filter_In.
Qed.

(** On a well-formed string the loop, run in any order of [badChars],
    escapes code point by code point. *)
Lemma escape_with_any_order (order : list jsstring) (s : jsstring) :
  isWellFormed s = true →
  order ≡ₚ badChars s →
  escape_with order s = escape_points s.
Proof.
  intros Hs Hperm.
  assert (∀ p, p ∈ order ↔ p ∈ code_points s ∧ bad p = true) as Hin.
  { intros p. rewrite Hperm. by apply elem_of_badChars. }
  pose proof (code_points_well_formed s Hs) as Hcp.
  rewrite <-(concat_code_points s) at 1.
  rewrite escape_with_code_points; [|apply Forall_forall|done].
  - apply concat_map_ext_Forall, Forall_forall. intros q Hq.
    destruct (bad q) eqn:Hbad.
    + rewrite bool_decide_true; [done|]. by apply Hin.
    + rewrite bool_decide_false; [done|]. intros [_ ?]%Hin. congruence.
  - intros p [Hp Hbad]%Hin. split; [|done].
    rewrite Forall_forall in Hcp. by apply Hcp.
Qed.

(** A string of allowed code units has no bad characters. *)
Lemma badChars_allowed (s : jsstring) :
  Forall (λ c, allowed c = true) s → badChars s = [].
Proof.
  intros Hs. unfold badChars.
  replace (strip_allowed s) with (@nil unit16); [done|].
  symmetry. unfold strip_allowed.
  induction Hs as [|c s Hc _ IH]; simpl; [done|]. by rewrite Hc.
Qed.

End EscapeFacts.

(** ** The escaping of a localpart *)

Section Escaping.
Import JS MatrixUser.

(** A string without surrogates is well formed, and the string iterator
    yields its code units. *)
Lemma no_surrogate_code_points (s : jsstring) :
  Forall (λ c, is_high_surrogate c = false ∧ is_low_surrogate c = false) s →
  isWellFormed s = true ∧ code_points s = units s.
Proof.
  induction 1 as [|c s [Hh Hl] _ [IH1 IH2]]; [done|].
  rewrite code_points_cons by done. simpl. by rewrite Hh, Hl, IH1, IH2.
Qed.

(** There, escaping code point by code point is escaping code unit by code
    unit. *)
Lemma escape_points_units (s : jsstring) :
  code_points s = units s → escape_points s = escape_units s.
Proof.
  intros Hs. unfold escape_points, escape_units. rewrite Hs. clear Hs.
  induction s as [|c s IH]; simpl; [done|].
  rewrite IH. by destruct (allowed c).
Qed.

Lemma localpart_escapeUserId (this : instance) :
  localpart (escapeUserId this) =
    escape_with (badChars (localpart this)) (localpart this).
Proof. reflexivity. Qed.

(** Escaping changes nothing in a localpart of allowed code units. *)
Lemma escapeUserId_allowed (this : instance) :
  Forall (λ c, allowed c = true) (localpart this) →
  localpart (escapeUserId this) = localpart this.
Proof.
  intros H. by rewrite localpart_escapeUserId, badChars_allowed.
Qed.

(** C1, as amended.  The allowed set of the code is [A-Z], [a-z], [0-9],
    [-], [.], [=] and [_]; the slash is not in it.  For a localpart whose
    other code units all lie between 0x10 and 0xff, [escapeUserId] replaces
    every occurrence of each of them by [=] and the two lowercase
    hexadecimal digits of its code, and keeps the allowed ones in place. *)
Theorem escapeUserId_two_digit_hex (this : instance) :
  forallb (λ c, allowed c || ((0x10 <=? c) && (c <=? 0xFF))) (localpart this) = true →
  localpart (escapeUserId this) =
    List.flat_map (λ c, if allowed c then [c] else Spec.two_digit_escape c)
      (localpart this).
Proof.
  intros H. apply forallb_Forall in H.
  destruct (no_surrogate_code_points (localpart this)) as [Hwf Hcp].
  { eapply Forall_impl; [exact H|]. intros c Hc. cbv beta in *.
    destruct (allowed c) eqn:Ha; [by apply allowed_not_surrogate|].
    apply andb_true_iff in Hc as [_ Hhi%N.leb_le].
    unfold is_high_surrogate, is_low_surrogate.
    rewrite !andb_false_iff, !N.leb_gt. lia. }
  rewrite localpart_escapeUserId, escape_with_any_order by done.
  rewrite escape_points_units by done.
  apply flat_map_ext_Forall. eapply Forall_impl; [exact H|].
  intros c Hc. cbv beta in *. destruct (allowed c); [done|].
  apply andb_true_iff in Hc as [Hlo%N.leb_le Hhi%N.leb_le].
  unfold quoted, Spec.two_digit_escape. by rewrite toString16_two_digits.
Qed.

(** The theorem at the localpart [foo bar]. *)
Lemma escapeUserId_two_digit_hex_witness :
  let foo_bar :=
    mk (str "@foo bar:example.com") (str "foo bar") (Some (str "example.com")) ∅ in
  forallb (λ c, allowed c || ((0x10 <=? c) && (c <=? 0xFF))) (localpart foo_bar) = true
  ∧ localpart (escapeUserId foo_bar) = str "foo=20bar".
Proof.
  split; [reflexivity|].
  apply (escapeUserId_two_digit_hex
           (mk (str "@foo bar:example.com") (str "foo bar")
               (Some (str "example.com")) ∅)).
  reflexivity.
Defined.

(** C1 as stated fails on the code.  A tab (code 9) is written as [=9], with
    one digit; the euro sign (code 0x20ac) as [=20ac], with four; and the
    slash, which the claim counts as allowed, is escaped as [=2f].  So the
    code does not compute the escaping that the claim describes. *)
Lemma tab_euro_slash_counterexample :
  let user (lp : jsstring) := mk (str "@" ++ lp ++ str ":h") lp (Some (str "h")) ∅ in
  (localpart (escapeUserId (user [9])) = str "=9"
   ∧ Spec.escape [9] = str "=09")
  ∧ (localpart (escapeUserId (user [0x20AC])) = str "=20ac"
     ∧ length (localpart (escapeUserId (user [0x20AC]))) ≠ 3%nat)
  ∧ (localpart (escapeUserId (user (str "a/b"))) = str "a=2fb"
     ∧ Spec.escape (str "a/b") = str "a/b")
  ∧ ¬ (∀ this, localpart (escapeUserId this) = Spec.escape (localpart this)).
Proof.
  cbv zeta. split_and!; try reflexivity.
  - vm_compute. discriminate.
  - intros H. specialize (H (mk (str "@" ++ [9] ++ str ":h") [9] (Some (str "h")) ∅)).
    vm_compute in H. discriminate H.
Qed.

(** C6, as amended.  For a localpart that is well-formed UTF-16 (every
    surrogate is part of a surrogate pair), the replacements give the same
    final string in every order of the set of bad characters. *)
Theorem escape_order_irrelevant (s : jsstring) (order1 order2 : list jsstring) :
  isWellFormed s = true →
  order1 ≡ₚ badChars s →
  order2 ≡ₚ badChars s →
  escape_with order1 s = escape_with order2 s.
Proof.
  intros Hs H1 H2. by rewrite !escape_with_any_order.
Qed.

(** The theorem at a localpart with a space, U+1F600 and an exclamation
    mark, for two orders of the three. *)
Lemma escape_order_irrelevant_witness :
  let smiley := [0xD83D; 0xDE00] in
  let s := str "a b" ++ smiley ++ str "!c" in
  (isWellFormed s = true
   ∧ [str " "; smiley; str "!"] ≡ₚ badChars s
   ∧ [smiley; str " "; str "!"] ≡ₚ badChars s)
  ∧ escape_with [str " "; smiley; str "!"] s = escape_with [smiley; str " "; str "!"] s.
Proof.
  assert ([[0xD83D; 0xDE00]; str " "; str "!"]
          ≡ₚ badChars (str "a b" ++ [0xD83D; 0xDE00] ++ str "!c")) as Hswap
    by apply perm_swap.
  split; [split_and!; [reflexivity|reflexivity|exact Hswap]|].
  apply (escape_order_irrelevant (str "a b" ++ [0xD83D; 0xDE00] ++ str "!c"));
    [reflexivity|reflexivity|exact Hswap].
Defined.

(** C6 as stated fails on the code.  In the localpart U+1F600 followed by a
    lone low surrogate 0xde00 the set holds the pair and the lone surrogate.
    In the order of the code the pair is replaced first; the other way round
    the lone surrogate is first replaced inside the pair too, and the high
    surrogate stays behind. *)
Lemma surrogate_pair_order_counterexample :
  let s := [0xD83D; 0xDE00; 0xDE00] in
  isWellFormed s = false
  ∧ badChars s = [[0xD83D; 0xDE00]; [0xDE00]]
  ∧ [[0xDE00]; [0xD83D; 0xDE00]] ≡ₚ badChars s
  ∧ escape_with [[0xD83D; 0xDE00]; [0xDE00]] s = str "=d83d=de00"
  ∧ escape_with [[0xDE00]; [0xD83D; 0xDE00]] s = 0xD83D :: str "=de00=de00"
  ∧ escape_with [[0xD83D; 0xDE00]; [0xDE00]] s ≠ escape_with [[0xDE00]; [0xD83D; 0xDE00]] s.
Proof.
  cbv zeta. split_and!; [reflexivity|reflexivity|apply perm_swap|reflexivity|reflexivity|].
  vm_compute. discriminate.
Qed.

(** C7, as amended.  On a localpart whose code units are all in the allowed
    set of the code ([A-Z], [a-z], [0-9], [-], [.], [=] and [_]; the slash is
    not in it), escaping any number of times leaves the localpart
    unchanged. *)
Theorem escapeUserId_allowed_noop (this : instance) (n : nat) :
  forallb allowed (localpart this) = true →
  localpart (Nat.iter n escapeUserId this) = localpart this.
Proof.
  intros H.
  assert (Forall (λ c, allowed c = true) (localpart this)) as Hall
    by by apply forallb_Forall.
  induction n as [|n IH]; [done|].
  simpl. rewrite <-IH. apply escapeUserId_allowed. by rewrite IH.
Qed.

(** The theorem at [already.valid_123], escaped three times. *)
Lemma escapeUserId_allowed_noop_witness :
  let u := mk (str "@already.valid_123:example.com") (str "already.valid_123")
              (Some (str "example.com")) ∅ in
  forallb allowed (localpart u) = true
  ∧ localpart (Nat.iter 3 escapeUserId u) = str "already.valid_123".
Proof.
  split; [reflexivity|].
  apply (escapeUserId_allowed_noop
           (mk (str "@already.valid_123:example.com") (str "already.valid_123")
               (Some (str "example.com")) ∅) 3).
  reflexivity.
Defined.

(** C7 as stated fails on the code.  The claims count the slash among the
    allowed characters, and the localpart [a/b] has such characters only;
    yet one run of the escaping turns it into [a=2fb]. *)
Lemma slash_localpart_counterexample :
  let u := mk (str "@a/b:example.com") (str "a/b") (Some (str "example.com")) ∅ in
  forallb Spec.allowed (localpart u) = true
  ∧ localpart (escapeUserId u) = str "a=2fb"
  ∧ localpart (Nat.iter 1 escapeUserId u) ≠ localpart u.
Proof.
  cbv zeta. split_and!; [reflexivity..|]. vm_compute. discriminate.
Qed.

End Escaping.

(** ** The constructor of MatrixUser *)

Section Construction.
Import JS MatrixUser.

Lemma split_no_sep (sep : unit16) (s : jsstring) :
  forallb (λ c, negb (c =? sep)) s = true → split sep s = [s].
Proof.
  induction s as [|c s IH]; simpl; [done|].
  intros [Hc Hs]%andb_true_iff. apply negb_true_iff in Hc.
  by rewrite Hc, IH.
Qed.

Lemma split_app_sep (sep : unit16) (a b : jsstring) :
  forallb (λ c, negb (c =? sep)) a = true →
  split sep (a ++ sep :: b) = a :: split sep b.
Proof.
  induction a as [|c a IH]; simpl.
  - intros _. by rewrite N.eqb_refl.
  - intros [Hc Ha]%andb_true_iff. apply negb_true_iff in Hc.
    by rewrite Hc, IH.
Qed.

(** The pieces of a user id [@localpart:host] with a single colon. *)
Lemma split_well_formed (lp h : jsstring) :
  Spec.no_colon lp = true → Spec.no_colon h = true →
  split (chr ":") (str "@" ++ lp ++ str ":" ++ h) = [str "@" ++ lp; h].
Proof.
  intros Hlp Hh.
  change (str "@" ++ lp ++ str ":" ++ h) with ((chr "@" :: lp) ++ chr ":" :: h).
  rewrite split_app_sep, split_no_sep; [done|exact Hh|].
  simpl. exact Hlp.
Qed.

(** A run of the escaping step ends by recomputing the user id. *)
Lemma invariant_escapeUserId (this : instance) : Spec.invariant (escapeUserId this).
Proof. reflexivity. Qed.

(** What the constructor does once both guards are passed. *)
Lemma MatrixUser_accepted (ESCAPE_DEFAULT : bool) (this : instance)
    (userId : jsstring) (data : value) (escape : option bool) :
  userId ≠ [] →
  truthy data && negb (String.eqb (toStringTag data) "[object Object]") = false →
  MatrixUser ESCAPE_DEFAULT this (Some userId) data escape =
    let parsed :=
      mk userId (substring 1 (List.nth 0 (split (chr ":") userId) []))
         (split (chr ":") userId !! 1%nat) (_data this) in
    Return (set__data (match data with VObject props => props | _ => ∅ end)
              (if default ESCAPE_DEFAULT escape then escapeUserId parsed else parsed)).
Proof.
  intros Hne Hguard. unfold MatrixUser.
  destruct userId as [|c uid]; [done|]. by rewrite Hguard.
Qed.

(** C2.  The host is the piece between the first and the second colon, not
    all that follows the first colon: for [@alice:example.com:8448] the
    constructor stores the host [example.com], and with escaping on it
    rewrites the user id to [@alice:example.com]. *)
Theorem MatrixUser_host_stops_at_second_colon (ESCAPE_DEFAULT : bool) (this : instance) :
  let userId := str "@alice:example.com:8448" in
  Spec.split_first userId = (str "@alice", Some (str "example.com:8448"))
  ∧ MatrixUser ESCAPE_DEFAULT this (Some userId) VUndefined (Some false) =
      Return (mk userId (str "alice") (Some (str "example.com")) ∅)
  ∧ MatrixUser ESCAPE_DEFAULT this (Some userId) VUndefined (Some true) =
      Return (mk (str "@alice:example.com") (str "alice") (Some (str "example.com")) ∅)
  ∧ Some (str "example.com") ≠ snd (Spec.split_first userId).
Proof. split_and!; [reflexivity..|]. vm_compute. discriminate. Qed.

(** C3, as amended.  The invariant holds after every run of the escaping
    step, hence after a construction that escapes; after a construction
    that does not escape it holds when the user id has the form
    [@localpart:host] with a single colon. *)
Theorem invariant_after_construction_and_escaping :
  (∀ this : instance, Spec.invariant (escapeUserId this))
  ∧ (∀ (ESCAPE_DEFAULT : bool) (this : instance) (userId : option jsstring)
       (data : value) (escape : option bool) (u : instance),
       MatrixUser ESCAPE_DEFAULT this userId data escape = Return u →
       default ESCAPE_DEFAULT escape = true
       ∨ (∃ lp h, userId = Some (str "@" ++ lp ++ str ":" ++ h)
                  ∧ Spec.no_colon lp = true ∧ Spec.no_colon h = true) →
       Spec.invariant u).
Proof.
  split; [exact invariant_escapeUserId|].
  intros dflt this userId data escape u Hu Hcase.
  assert (∃ uid, userId = Some uid ∧ uid ≠ []
                 ∧ truthy data && negb (String.eqb (toStringTag data) "[object Object]")
                   = false) as (uid & -> & Hne & Hguard).
  { destruct userId as [[|c uid]|]; try discriminate Hu.
    exists (c :: uid). split_and!; [done..|].
    unfold MatrixUser in Hu.
    by destruct (truthy data && negb (String.eqb (toStringTag data) "[object Object]")). }
  rewrite MatrixUser_accepted in Hu by done. cbv zeta in Hu.
  injection Hu as <-.
  destruct (default dflt escape) eqn:Hesc; [reflexivity|].
  destruct Hcase as [?|(lp & h & Huid & Hlp & Hh)]; [done|].
  apply (inj Some) in Huid. subst uid. rewrite split_well_formed by done.
  reflexivity.
Qed.

(** The theorem at [@a b:example.com], constructed without escaping. *)
Lemma invariant_after_construction_and_escaping_witness :
  let this := mk [] [] None ∅ in
  let u := mk (str "@a b:example.com") (str "a b") (Some (str "example.com")) ∅ in
  MatrixUser true this (Some (str "@a b:example.com")) VUndefined (Some false) = Return u
  ∧ Spec.no_colon (str "a b") = true
  ∧ Spec.no_colon (str "example.com") = true
  ∧ Spec.invariant u.
Proof.
  split_and!; [reflexivity..|].
  apply (proj2 invariant_after_construction_and_escaping true (mk [] [] None ∅)
           (Some (str "@a b:example.com")) VUndefined (Some false)).
  - reflexivity.
  - right. exists (str "a b"), (str "example.com"). split_and!; reflexivity.
Defined.

(** C3 as stated fails on the code.  Without escaping, the user id
    [alice:example.com], which lacks the sigil, is kept as it is, while its
    first character is dropped from the localpart. *)
Lemma missing_sigil_counterexample :
  let u := mk (str "alice:example.com") (str "lice") (Some (str "example.com")) ∅ in
  MatrixUser true (mk [] [] None ∅) (Some (str "alice:example.com")) VUndefined (Some false)
    = Return u
  ∧ ¬ Spec.invariant u.
Proof. split; [reflexivity|]. unfold Spec.invariant. vm_compute. discriminate. Qed.

(** C4, as amended.  For a non-empty user id, a [data] argument that is
    truthy and not a plain object (an array, a non-empty string, a non-zero
    number, [true]) is rejected with the error of the second guard, the
    receiver untouched; a falsy one ([null], [false], [0], [NaN], the empty
    string, [undefined]) is accepted and replaced by an empty mapping. *)
Theorem MatrixUser_data_guard (ESCAPE_DEFAULT : bool) (this : instance)
    (c : unit16) (userId : jsstring) (data : value) (escape : option bool) :
  (truthy data = true → String.eqb (toStringTag data) "[object Object]" = false →
   MatrixUser ESCAPE_DEFAULT this (Some (c :: userId)) data escape =
     Throw (Error "data arg must be an Object") this)
  ∧ (truthy data = false →
     ∃ u, MatrixUser ESCAPE_DEFAULT this (Some (c :: userId)) data escape = Return u
          ∧ _data u = ∅).
Proof.
  split.
  - intros Ht Htag. unfold MatrixUser. by rewrite Ht, Htag.
  - intros Hf. rewrite MatrixUser_accepted by (by rewrite ?Hf).
    eexists. split; [reflexivity|].
    by destruct data.
Qed.

(** The theorem at an empty array, which is rejected, and at [NaN], which
    is accepted. *)
Lemma MatrixUser_data_guard_witness :
  let this := mk [] [] None ∅ in
  let userId := str "@alice:example.com" in
  (truthy (VArray []) = true
   ∧ String.eqb (toStringTag (VArray [])) "[object Object]" = false
   ∧ MatrixUser true this (Some userId) (VArray []) None =
       Throw (Error "data arg must be an Object") this)
  ∧ (truthy (VNumber NaN) = false
     ∧ ∃ u, MatrixUser true this (Some userId) (VNumber NaN) None = Return u
            ∧ _data u = ∅).
Proof.
  split.
  - split_and!; [reflexivity..|].
    apply (proj1 (MatrixUser_data_guard true (mk [] [] None ∅) (chr "@")
                    (str "alice:example.com") (VArray []) None)); reflexivity.
  - split; [reflexivity|].
    apply (proj2 (MatrixUser_data_guard true (mk [] [] None ∅) (chr "@")
                    (str "alice:example.com") (VNumber NaN) None)); reflexivity.
Defined.

(** C4 as stated fails on the code: [null], the empty string, zero and
    [false] are provided and are no plain objects, yet construction
    succeeds with an empty bag. *)
Lemma falsy_data_accepted_counterexample :
  let this := mk [] [] None ∅ in
  let userId := str "@alice:example.com" in
  let u := mk userId (str "alice") (Some (str "example.com")) ∅ in
  MatrixUser true this (Some userId) VNull None = Return u
  ∧ MatrixUser true this (Some userId) (VString []) None = Return u
  ∧ MatrixUser true this (Some userId) (VNumber (Num 0)) None = Return u
  ∧ MatrixUser true this (Some userId) (VBool false) None = Return u.
Proof. split_and!; reflexivity. Qed.

(** C5.  With an absent or empty user id the constructor throws
    [Missing user_id] and hands the receiver back untouched.  For all
    arguments, either every receiver becomes the same instance, all four
    fields assigned from the arguments, or the constructor throws and every
    receiver is handed back untouched. *)
Theorem MatrixUser_missing_userId (ESCAPE_DEFAULT : bool) (this : instance)
    (data : value) (escape : option bool) :
  MatrixUser ESCAPE_DEFAULT this None data escape = Throw (Error "Missing user_id") this
  ∧ MatrixUser ESCAPE_DEFAULT this (Some []) data escape
    = Throw (Error "Missing user_id") this
  ∧ ∀ userId : option jsstring,
      (∃ u, ∀ receiver,
          MatrixUser ESCAPE_DEFAULT receiver userId data escape = Return u)
      ∨ (∃ e, ∀ receiver,
          MatrixUser ESCAPE_DEFAULT receiver userId data escape = Throw e receiver).
Proof.
  split_and!; [reflexivity..|].
  intros [[|c uid]|]; [right; by eexists..| |right; by eexists].
  destruct (truthy data && negb (String.eqb (toStringTag data) "[object Object]"))
    eqn:Hguard.
  - right. eexists. intros receiver. unfold MatrixUser. by rewrite Hguard.
  - left.
    pose (parsed := mk (c :: uid)
                      (substring 1 (List.nth 0 (split (chr ":") (c :: uid)) []))
                      (split (chr ":") (c :: uid) !! 1%nat) ∅).
    exists (set__data (match data with VObject props => props | _ => ∅ end)
              (if default ESCAPE_DEFAULT escape then escapeUserId parsed else parsed)).
    intros receiver. rewrite MatrixUser_accepted by done.
    by destruct (default ESCAPE_DEFAULT escape).
Qed.

End Construction.

(** ** Serialisation *)

Section Serialisation.
Import JS MatrixUser.

Lemma serialize_unfold (this : instance) :
  serialize this =
    (<[str "localpart" := VString (localpart this)]> (_data this),
     set__data (<[str "localpart" := VString (localpart this)]> (_data this)) this).
Proof. reflexivity. Qed.

(** A write under a key other than [__proto__] is an insertion. *)
Lemma set_ordinary (key : jsstring) (val : value) (this : instance) :
  key ≠ str "__proto__" →
  set key val this = set__data (<[key := val]> (_data this)) this.
Proof. intros H. unfold set. by rewrite bool_decide_false. Qed.




(** C9.  [serialize] returns the bag of the instance; it changes the entry
    [localpart] of the bag and nothing else: every other key is bound as
    before, a value stored under [localpart] with [set] is overwritten by the
    localpart of the instance, the other fields are unchanged, and a second
    call returns the same mapping and changes nothing more. *)
Theorem serialize_frame (this : instance) :
  let after := snd (serialize this) in
  fst (serialize this) = _data after
  ∧ (∀ key, key ≠ str "localpart" → _data after !! key = _data this !! key)
  ∧ _data after !! str "localpart" = Some (VString (localpart this))
  ∧ (userId after, localpart after, host after)
    = (userId this, localpart this, host this)
  ∧ (∀ val, fst (serialize (set (str "localpart") val this)) !! str "localpart"
            = Some (VString (localpart this)))
  ∧ serialize after = (fst (serialize this), after).
Proof.
  cbv zeta. rewrite !serialize_unfold. cbn [fst snd _data set__data].
  split_and!.
  - reflexivity.
  - intros key Hne. by rewrite lookup_insert_ne.
  - apply lookup_insert_eq.
  - reflexivity.
  - intros val. rewrite set_ordinary by discriminate. apply lookup_insert_eq.
  - cbn [localpart userId host]. by rewrite insert_insert_eq.
Qed.

(** The theorem at an instance on which the key [room] was set. *)
Lemma serialize_frame_witness :
  let u := set (str "room") (VNumber (Num 7))
             (mk (str "@a:h") (str "a") (Some (str "h")) ∅) in
  str "room" ≠ str "localpart"
  ∧ _data (snd (serialize u)) !! str "room" = Some (VNumber (Num 7)).
Proof.
  split; [discriminate|].
  rewrite (proj1 (proj2 (serialize_frame
             (set (str "room") (VNumber (Num 7))
                (mk (str "@a:h") (str "a") (Some (str "h")) ∅)))))
    by discriminate.
  reflexivity.
Defined.

End Serialisation.

(** ** RemoteRoom *)

Section Room.
Import JS.

(** C10.  The constructor of [RemoteRoom] checks nothing: for every
    identifier, the empty string and an absent one included, and for every
    [data], it returns normally; [getId] gives back the identifier as it was
    passed, and a falsy [data] is replaced by an empty mapping. *)
Theorem RemoteRoom_no_validation (this : RemoteRoom.instance)
    (identifier : option jsstring) (data : value) :
  ∃ room, RemoteRoom.RemoteRoom this identifier data = Return room
          ∧ RemoteRoom.getId room = identifier
          ∧ RemoteRoom.data room = (if truthy data then data else VObject ∅)
          ∧ RemoteRoom.serialize room = RemoteRoom.data room.
Proof. eexists. split_and!; reflexivity. Qed.

End Room.

(** * Further properties of the code *)

(** ** Escaping: closed form, conformance, idempotence *)

Section EscapingMore.
Import JS MatrixUser.

Lemma Forall_forallb {A} (f : A → bool) (l : list A) :
  Forall (λ x, f x = true) l → forallb f l = true.
Proof. induction 1 as [|x l Hx _ IH]; simpl; [done|]. by rewrite Hx, IH. Qed.

(** Escaping code point by code point leaves allowed code units only,
    whatever the string. *)
Lemma escape_points_allowed (s : jsstring) :
  Forall (λ c, allowed c = true) (escape_points s).
Proof.
  unfold escape_points. induction (code_points s) as [|p l IH]; [constructor|].
  cbn [List.map List.concat]. apply Forall_app. split; [|exact IH].
  destruct (bad p) eqn:Hp; [apply quoted_allowed|].
  destruct p as [|c [|]]; try discriminate Hp.
  simpl in Hp. apply negb_false_iff in Hp. by repeat constructor.
Qed.

Lemma localpart_escapeUserId_well_formed (this : instance) :
  isWellFormed (localpart this) = true →
  localpart (escapeUserId this) = escape_points (localpart this).
Proof. intros H. by rewrite localpart_escapeUserId, escape_with_any_order. Qed.

(** Escaping an instance whose localpart is already allowed only recomputes
    the user id. *)
Lemma escapeUserId_allowed_instance (this : instance) :
  Forall (λ c, allowed c = true) (localpart this) →
  escapeUserId this =
    mk (str "@" ++ localpart this ++ str ":" ++ interpolate (host this))
       (localpart this) (host this) (_data this).
Proof.
  intros H. unfold escapeUserId. rewrite badChars_allowed by done. reflexivity.
Qed.

(** For a well-formed localpart, [escapeUserId] replaces every code point
    that is not a single allowed code unit by [=] and the lowercase
    hexadecimal form, without padding, of its first code unit, and keeps the
    allowed code units in place. *)
Theorem escapeUserId_closed_form (this : instance) :
  isWellFormed (localpart this) = true →
  localpart (escapeUserId this) =
    List.concat
      (List.map (λ p, if bad p then str "=" ++ toString16 (charCodeAt0 p) else p)
         (code_points (localpart this))).
Proof. apply localpart_escapeUserId_well_formed. Qed.

(** The theorem at a localpart with a tab, a slash, the euro sign and
    U+1F600. *)
Lemma escapeUserId_closed_form_witness :
  let lp := [9] ++ str "a/" ++ [0x20AC; 0xD83D; 0xDE00] in
  isWellFormed lp = true
  ∧ localpart (escapeUserId (mk [] lp None ∅)) = str "=9a=2f=20ac=d83d".
Proof.
  split; [reflexivity|].
  apply (escapeUserId_closed_form
           (mk [] ([9] ++ str "a/" ++ [0x20AC; 0xD83D; 0xDE00]) None ∅)).
  reflexivity.
Defined.

(** For a well-formed localpart, the escaped localpart consists of allowed
    code units only. *)
Theorem escapeUserId_conforms (this : instance) :
  isWellFormed (localpart this) = true →
  forallb allowed (localpart (escapeUserId this)) = true.
Proof.
  intros H. rewrite localpart_escapeUserId_well_formed by done.
  apply Forall_forallb, escape_points_allowed.
Qed.

Lemma escapeUserId_conforms_witness :
  let lp := str "Ann Lee/" ++ [0xD83D; 0xDE00] in
  isWellFormed lp = true
  ∧ forallb allowed (localpart (escapeUserId (mk [] lp None ∅))) = true.
Proof.
  split; [reflexivity|].
  apply (escapeUserId_conforms (mk [] (str "Ann Lee/" ++ [0xD83D; 0xDE00]) None ∅)).
  reflexivity.
Defined.

(** For a well-formed localpart, a second run of [escapeUserId] changes
    nothing: the equals sign is allowed and is not escaped again. *)
Theorem escapeUserId_idempotent (this : instance) :
  isWellFormed (localpart this) = true →
  escapeUserId (escapeUserId this) = escapeUserId this.
Proof.
  intros H.
  assert (Forall (λ c, allowed c = true) (localpart (escapeUserId this))) as Hall.
  { rewrite localpart_escapeUserId_well_formed by done. apply escape_points_allowed. }
  by rewrite escapeUserId_allowed_instance.
Qed.

Lemma escapeUserId_idempotent_witness :
  let u := mk (str "@a b:h") (str "a b") (Some (str "h")) ∅ in
  isWellFormed (localpart u) = true
  ∧ escapeUserId (escapeUserId u) = escapeUserId u.
Proof.
  split; [reflexivity|].
  apply (escapeUserId_idempotent (mk (str "@a b:h") (str "a b") (Some (str "h")) ∅)).
  reflexivity.
Defined.

(** Escaping loses information: a well-formed localpart with a disallowed
    code unit and its own escaped form are different localparts with the
    same escaped form. *)
Theorem escapeUserId_collision (this : instance) :
  isWellFormed (localpart this) = true →
  forallb allowed (localpart this) = false →
  localpart (escapeUserId this) ≠ localpart this
  ∧ localpart (escapeUserId (escapeUserId this)) = localpart (escapeUserId this).
Proof.
  intros Hwf Hbad.
  assert (Forall (λ c, allowed c = true) (localpart (escapeUserId this))) as Hall.
  { rewrite localpart_escapeUserId_well_formed by done. apply escape_points_allowed. }
  split.
  - intros Heq. rewrite Heq in Hall. apply Forall_forallb in Hall. congruence.
  - by apply escapeUserId_allowed.
Qed.

Lemma escapeUserId_collision_witness :
  let u := mk (str "@a b:h") (str "a b") (Some (str "h")) ∅ in
  (isWellFormed (localpart u) = true ∧ forallb allowed (localpart u) = false)
  ∧ localpart (escapeUserId u) ≠ str "a b"
  ∧ localpart (escapeUserId (escapeUserId u)) = localpart (escapeUserId u).
Proof.
  split; [split; reflexivity|].
  apply (escapeUserId_collision (mk (str "@a b:h") (str "a b") (Some (str "h")) ∅));
    reflexivity.
Defined.

(** Replacement keeps a property that holds of both the string and the
    replacement text. *)
Lemma replace_from_Forall (P : unit16 → Prop) (pat rep : jsstring) (skip : nat)
    (s : jsstring) :
  Forall P s → Forall P rep → Forall P (replace_from pat rep skip s).
Proof.
  intros Hs Hrep. revert skip.
  induction Hs as [|c s Hc Hs IH]; intros skip; [constructor|].
  destruct skip as [|skip]; cbn [replace_from]; [|apply IH].
  destruct (is_prefix pat (c :: s)).
  - apply Forall_app. split; [done|apply IH].
  - constructor; [done|apply IH].
Qed.

(** Whatever the string and the order, the loop only adds allowed code
    units. *)
Lemma escape_with_Forall (P : unit16 → Prop) (order : list jsstring) (res : jsstring) :
  (∀ c, allowed c = true → P c) →
  Forall P res → Forall P (escape_with order res).
Proof.
  intros HP. revert res.
  induction order as [|p order IH]; intros res Hres; [done|].
  apply IH. unfold escape_step, replace_g.
  apply replace_from_Forall; [done|].
  rewrite toLowerCase_toString16.
  eapply Forall_impl; [apply (quoted_allowed (charCodeAt0 p))|]. exact HP.
Qed.

(** For every localpart, well formed or not, each code unit of the escaped
    localpart is allowed or was a code unit of the localpart: escaping never
    introduces a disallowed code unit. *)
Theorem escapeUserId_adds_allowed_only (this : instance) (c : unit16) :
  c ∈ localpart (escapeUserId this) →
  allowed c = true ∨ c ∈ localpart this.
Proof.
  revert c. apply Forall_forall. rewrite localpart_escapeUserId.
  apply escape_with_Forall; [by left|].
  apply Forall_forall. by right.
Qed.

Lemma escapeUserId_adds_allowed_only_witness :
  let u := mk [] [0xDE00; 0xD83D; 0xDE00] None ∅ in
  0xD83D ∈ localpart (escapeUserId u)
  ∧ (allowed 0xD83D = true ∨ 0xD83D ∈ localpart u).
Proof.
  assert (0xD83D ∈ localpart (escapeUserId (mk [] [0xDE00; 0xD83D; 0xDE00] None ∅)))
    as Hin by (vm_compute; apply list_elem_of_In; simpl; tauto).
  split; [exact Hin|].
  exact (escapeUserId_adds_allowed_only (mk [] [0xDE00; 0xD83D; 0xDE00] None ∅) _ Hin).
Defined.

End EscapingMore.

(** ** The constructor of MatrixUser: what it makes of a user id *)

Section ConstructionMore.
Import JS MatrixUser.

(** A construction that returns has passed both guards. *)
Lemma MatrixUser_Return_inv (ESCAPE_DEFAULT : bool) (this : instance)
    (userId : option jsstring) (data : value) (escape : option bool) (u : instance) :
  MatrixUser ESCAPE_DEFAULT this userId data escape = Return u →
  ∃ uid, userId = Some uid ∧ uid ≠ []
    ∧ truthy data && negb (String.eqb (toStringTag data) "[object Object]") = false
    ∧ u = set__data (match data with VObject props => props | _ => ∅ end)
            (if default ESCAPE_DEFAULT escape
             then escapeUserId
                    (mk uid (substring 1 (List.nth 0 (split (chr ":") uid) []))
                       (split (chr ":") uid !! 1%nat) (_data this))
             else mk uid (substring 1 (List.nth 0 (split (chr ":") uid) []))
                    (split (chr ":") uid !! 1%nat) (_data this)).
Proof.
  intros Hu.
  destruct userId as [[|c uid]|]; try discriminate Hu.
  exists (c :: uid).
  destruct (truthy data && negb (String.eqb (toStringTag data) "[object Object]"))
    eqn:Hguard; [by unfold MatrixUser in Hu; rewrite Hguard in Hu|].
  rewrite MatrixUser_accepted in Hu by done. cbv zeta in Hu.
  injection Hu as <-. split_and!; [done..|].
  by destruct (default ESCAPE_DEFAULT escape).
Qed.

Lemma allowed_not_colon (c : unit16) :
  allowed c = true → negb (c =? chr ":") = true.
Proof.
  intros Hc. apply negb_true_iff, N.eqb_neq. intros ->. discriminate Hc.
Qed.

(** No piece of a split holds the separator. *)
Lemma split_pieces (sep : unit16) (s : jsstring) :
  Forall (λ piece, forallb (λ c, negb (c =? sep)) piece = true) (split sep s).
Proof.
  induction s as [|c s IH]; simpl; [by repeat constructor|].
  destruct (c =? sep) eqn:Hc; [by constructor|].
  destruct (split sep s) as [|piece pieces]; [by repeat constructor; simpl; rewrite Hc|].
  apply Forall_cons in IH as [Hpiece Hpieces].
  constructor; [|done]. simpl. by rewrite Hc, Hpiece.
Qed.

Lemma no_colon_drop (n : nat) (s : jsstring) :
  Spec.no_colon s = true → Spec.no_colon (drop n s) = true.
Proof.
  unfold Spec.no_colon. intros H%forallb_Forall.
  by apply Forall_forallb, Forall_drop.
Qed.

(** The parts of a user id [@localpart:host] with a single colon. *)
Lemma parse_standard_form (lp h : jsstring) :
  Spec.no_colon lp = true → Spec.no_colon h = true →
  substring 1 (List.nth 0 (split (chr ":") (str "@" ++ lp ++ str ":" ++ h)) []) = lp
  ∧ split (chr ":") (str "@" ++ lp ++ str ":" ++ h) !! 1%nat = Some h.
Proof. intros Hlp Hh. by rewrite split_well_formed. Qed.

(** After every successful construction, with or without escaping, neither
    the localpart nor the host contains a colon. *)
Theorem MatrixUser_parts_have_no_colon (ESCAPE_DEFAULT : bool) (this : instance)
    (userId : option jsstring) (data : value) (escape : option bool) (u : instance) :
  MatrixUser ESCAPE_DEFAULT this userId data escape = Return u →
  Spec.no_colon (localpart u) = true
  ∧ ∀ h, host u = Some h → Spec.no_colon h = true.
Proof.
  intros (uid & -> & Hne & Hguard & ->)%MatrixUser_Return_inv.
  pose proof (split_pieces (chr ":") uid) as Hpieces.
  assert (Spec.no_colon (substring 1 (List.nth 0 (split (chr ":") uid) [])) = true)
    as Hlp.
  { apply no_colon_drop. destruct (split (chr ":") uid) as [|piece pieces]; [done|].
    by apply Forall_cons in Hpieces as [? _]. }
  assert (∀ h, split (chr ":") uid !! 1%nat = Some h → Spec.no_colon h = true) as Hh.
  { intros h Hlook. rewrite Forall_forall in Hpieces.
    eapply Hpieces, list_elem_of_lookup_2, Hlook. }
  destruct (default ESCAPE_DEFAULT escape); [|by split].
  split; [|exact Hh].
  cbn [set__data localpart]. rewrite localpart_escapeUserId. cbn [localpart].
  apply Forall_forallb, escape_with_Forall; [apply allowed_not_colon|].
  by apply forallb_Forall.
Qed.

Lemma MatrixUser_parts_have_no_colon_witness :
  let u := mk (str "@a=20b:x") (str "a=20b") (Some (str "x")) ∅ in
  MatrixUser true (mk [] [] None ∅) (Some (str "@a b:x:y")) VUndefined None = Return u
  ∧ Spec.no_colon (localpart u) = true
  ∧ ∀ h, host u = Some h → Spec.no_colon h = true.
Proof.
  split; [reflexivity|].
  apply (MatrixUser_parts_have_no_colon true (mk [] [] None ∅) (Some (str "@a b:x:y"))
           VUndefined None (mk (str "@a=20b:x") (str "a=20b") (Some (str "x")) ∅)).
  reflexivity.
Defined.

(** For a user id [@localpart:host] with a single colon and a well-formed
    localpart, a construction with escaping escapes the localpart and
    nothing else: the host is kept, the localpart consists of allowed code
    units, and the user id is rebuilt around it. *)
Theorem MatrixUser_escapes_localpart_only (ESCAPE_DEFAULT : bool) (this : instance)
    (lp h : jsstring) (data : value) (escape : option bool) (u : instance) :
  Spec.no_colon lp = true → Spec.no_colon h = true → isWellFormed lp = true →
  default ESCAPE_DEFAULT escape = true →
  MatrixUser ESCAPE_DEFAULT this (Some (str "@" ++ lp ++ str ":" ++ h)) data escape
    = Return u →
  localpart u = localpart (escapeUserId (mk [] lp None ∅))
  ∧ forallb allowed (localpart u) = true
  ∧ host u = Some h
  ∧ getId u = str "@" ++ localpart u ++ str ":" ++ h.
Proof.
  intros Hlp Hh Hwf Hesc (uid & Huid & _ & _ & ->)%MatrixUser_Return_inv.
  apply (inj Some) in Huid. subst uid.
  rewrite Hesc. destruct (parse_standard_form lp h Hlp Hh) as [-> ->].
  split_and!; try reflexivity.
  cbn [set__data localpart]. rewrite localpart_escapeUserId_well_formed by done.
  apply Forall_forallb, escape_points_allowed.
Qed.

Lemma MatrixUser_escapes_localpart_only_witness :
  let u := mk (str "@foo=20bar:example.com") (str "foo=20bar")
              (Some (str "example.com")) ∅ in
  (Spec.no_colon (str "foo bar") = true ∧ Spec.no_colon (str "example.com") = true
   ∧ isWellFormed (str "foo bar") = true)
  ∧ host u = Some (str "example.com")
  ∧ getId u = str "@" ++ localpart u ++ str ":" ++ str "example.com".
Proof.
  split; [split_and!; reflexivity|].
  apply (MatrixUser_escapes_localpart_only true (mk [] [] None ∅) (str "foo bar")
           (str "example.com") VUndefined None); reflexivity.
Defined.

(** For a user id [@localpart:host] with a single colon and a well-formed
    localpart, [getId] returns the id that was passed exactly when escaping
    is off or the localpart has allowed code units only. *)
Theorem MatrixUser_getId_unchanged_iff (ESCAPE_DEFAULT : bool) (this : instance)
    (lp h : jsstring) (data : value) (escape : option bool) (u : instance) :
  Spec.no_colon lp = true → Spec.no_colon h = true → isWellFormed lp = true →
  MatrixUser ESCAPE_DEFAULT this (Some (str "@" ++ lp ++ str ":" ++ h)) data escape
    = Return u →
  getId u = str "@" ++ lp ++ str ":" ++ h
  ↔ default ESCAPE_DEFAULT escape = false ∨ forallb allowed lp = true.
Proof.
  intros Hlp Hh Hwf (uid & Huid & _ & _ & ->)%MatrixUser_Return_inv.
  apply (inj Some) in Huid. subst uid.
  destruct (parse_standard_form lp h Hlp Hh) as [-> ->].
  destruct (default ESCAPE_DEFAULT escape); [|by split; [left|]].
  unfold getId. cbn [set__data userId escapeUserId set_userId set_localpart
                     localpart host interpolate].
  split.
  - intros Heq%app_inv_head%app_inv_tail. right.
    apply Forall_forallb. rewrite <-Heq.
    rewrite escape_with_any_order by done. apply escape_points_allowed.
  - intros [?|Hall%forallb_Forall]; [done|].
    by rewrite badChars_allowed.
Qed.

Lemma MatrixUser_getId_unchanged_iff_witness :
  let u := mk (str "@foo=20bar:example.com") (str "foo=20bar")
              (Some (str "example.com")) ∅ in
  (Spec.no_colon (str "foo bar") = true ∧ Spec.no_colon (str "example.com") = true
   ∧ isWellFormed (str "foo bar") = true)
  ∧ (getId u = str "@" ++ str "foo bar" ++ str ":" ++ str "example.com"
     ↔ default true None = false ∨ forallb allowed (str "foo bar") = true).
Proof.
  split; [split_and!; reflexivity|].
  apply (MatrixUser_getId_unchanged_iff true (mk [] [] None ∅) (str "foo bar")
           (str "example.com") VUndefined None); reflexivity.
Defined.

(** A user id without a colon has no host; with escaping the user id is
    rebuilt with the text [undefined] in the place of the host, and without
    escaping it is kept. *)
Theorem MatrixUser_without_colon (ESCAPE_DEFAULT : bool) (this : instance)
    (uid : jsstring) (data : value) (escape : option bool) (u : instance) :
  Spec.no_colon uid = true →
  MatrixUser ESCAPE_DEFAULT this (Some uid) data escape = Return u →
  host u = None
  ∧ getId u = (if default ESCAPE_DEFAULT escape
               then str "@" ++ localpart u ++ str ":undefined" else uid).
Proof.
  intros Hnc (uid' & Huid & _ & _ & ->)%MatrixUser_Return_inv.
  apply (inj Some) in Huid. subst uid'.
  rewrite split_no_sep by exact Hnc.
  by destruct (default ESCAPE_DEFAULT escape).
Qed.

Lemma MatrixUser_without_colon_witness :
  let u := mk (str "@alice:undefined") (str "alice") None ∅ in
  Spec.no_colon (str "@alice") = true
  ∧ MatrixUser true (mk [] [] None ∅) (Some (str "@alice")) VUndefined None = Return u
  ∧ host u = None
  ∧ getId u = str "@" ++ localpart u ++ str ":undefined".
Proof.
  split_and!; [reflexivity..| |];
    apply (MatrixUser_without_colon true (mk [] [] None ∅) (str "@alice")
             VUndefined None (mk (str "@alice:undefined") (str "alice") None ∅));
    reflexivity.
Defined.

(** Reloading a persisted user.  A user constructed with escaping from an
    id [@localpart:host] with a single colon and a well-formed localpart is
    reproduced by constructing again from its [getId] and its [serialize],
    with escaping on or off: the result is the user as [serialize] left
    it. *)
Theorem MatrixUser_reload (ESCAPE_DEFAULT : bool) (this : instance)
    (lp h : jsstring) (data : value) (escape : option bool) (u : instance)
    (ESCAPE_DEFAULT' : bool) (this' : instance) (escape' : option bool) :
  Spec.no_colon lp = true → Spec.no_colon h = true → isWellFormed lp = true →
  default ESCAPE_DEFAULT escape = true →
  MatrixUser ESCAPE_DEFAULT this (Some (str "@" ++ lp ++ str ":" ++ h)) data escape
    = Return u →
  MatrixUser ESCAPE_DEFAULT' this' (Some (getId u)) (VObject (fst (serialize u))) escape'
    = Return (snd (serialize u)).
Proof.
  intros Hlp Hh Hwf Hesc (uid & Huid & _ & _ & ->)%MatrixUser_Return_inv.
  apply (inj Some) in Huid. subst uid.
  rewrite Hesc. destruct (parse_standard_form lp h Hlp Hh) as [-> ->].
  set (lp' := escape_with (badChars lp) lp).
  assert (Forall (λ c, allowed c = true) lp') as Hall.
  { unfold lp'. rewrite escape_with_any_order by done. apply escape_points_allowed. }
  assert (Spec.no_colon lp' = true) as Hlp'.
  { apply Forall_forallb. eapply Forall_impl; [exact Hall|]. apply allowed_not_colon. }
  set (bag := match data with VObject props => props | _ => ∅ end).
  change (MatrixUser ESCAPE_DEFAULT' this' (Some (str "@" ++ lp' ++ str ":" ++ h))
            (VObject (<[str "localpart" := VString lp']> bag)) escape'
          = Return (mk (str "@" ++ lp' ++ str ":" ++ h) lp' (Some h)
                      (<[str "localpart" := VString lp']> bag))).
  rewrite MatrixUser_accepted by done. cbv zeta.
  destruct (parse_standard_form lp' h Hlp' Hh) as [-> ->].
  destruct (default ESCAPE_DEFAULT' escape'); [|reflexivity].
  by rewrite escapeUserId_allowed_instance.
Qed.

Lemma MatrixUser_reload_witness :
  let u := mk (str "@foo=20bar:example.com") (str "foo=20bar")
              (Some (str "example.com")) ∅ in
  (Spec.no_colon (str "foo bar") = true ∧ Spec.no_colon (str "example.com") = true
   ∧ isWellFormed (str "foo bar") = true)
  ∧ MatrixUser false (mk [] [] None ∅) (Some (getId u)) (VObject (fst (serialize u))) None
    = Return (snd (serialize u)).
Proof.
  split; [split_and!; reflexivity|].
  apply (MatrixUser_reload true (mk [] [] None ∅) (str "foo bar") (str "example.com")
           VUndefined None); reflexivity.
Defined.

End ConstructionMore.

(** ** The metadata bag of a MatrixUser *)

Section Bag.
Import JS MatrixUser.

Lemma get_property_insert (props : gmap jsstring value) (key : jsstring) (val : value) :
  get_property (<[key := val]> props) key = Value val.
Proof. unfold get_property. by rewrite lookup_insert_eq. Qed.

Lemma get_property_insert_ne (props : gmap jsstring value) (key key' : jsstring)
    (val : value) :
  key' ≠ key → get_property (<[key := val]> props) key' = get_property props key'.
Proof. intros H. unfold get_property. by rewrite lookup_insert_ne. Qed.

Lemma get_property_empty (key : jsstring) :
  get_property ∅ key =
    if bool_decide (key ∈ Object_prototype) then Builtin key else Value VUndefined.
Proof. unfold get_property. by rewrite lookup_empty. Qed.

(** For a key other than [__proto__], [get] after [set] returns the value
    that was stored, also under a name that every object inherits; the other
    keys read as before, and the user id, the localpart and the host are
    untouched. *)
Theorem MatrixUser_get_set (key : jsstring) (val : value) (this : instance) :
  key ≠ str "__proto__" →
  get key (set key val this) = Value val
  ∧ (∀ key', key' ≠ key → get key' (set key val this) = get key' this)
  ∧ (getId (set key val this), localpart (set key val this), host (set key val this))
    = (getId this, localpart this, host this).
Proof.
  intros Hkey. rewrite set_ordinary by done.
  unfold get. cbn [_data set__data]. split_and!.
  - apply get_property_insert.
  - intros key' Hne. by apply get_property_insert_ne.
  - reflexivity.
Qed.

Lemma MatrixUser_get_set_witness :
  let u := mk (str "@a:h") (str "a") (Some (str "h")) ∅ in
  str "toString" ≠ str "__proto__"
  ∧ get (str "toString") u = Builtin (str "toString")
  ∧ get (str "toString") (set (str "toString") VNull u) = Value VNull.
Proof.
  split_and!; [discriminate|reflexivity|].
  apply (MatrixUser_get_set (str "toString") VNull
           (mk (str "@a:h") (str "a") (Some (str "h")) ∅)).
  discriminate.
Defined.

(** The bag after a construction.  With a falsy [data] the bag is empty:
    [get] gives [undefined] for every key except the names that every object
    inherits, for which it gives the built-in, and there is no display name.
    With a plain object as [data], [get] reads the properties of that
    object. *)
Theorem MatrixUser_get_after_construction (ESCAPE_DEFAULT : bool) (this : instance)
    (userId : option jsstring) (data : value) (escape : option bool) (u : instance) :
  MatrixUser ESCAPE_DEFAULT this userId data escape = Return u →
  (truthy data = false →
   getDisplayName u = Value VUndefined
   ∧ ∀ key, get key u =
       if bool_decide (key ∈ Object_prototype) then Builtin key else Value VUndefined)
  ∧ (∀ props, data = VObject props → ∀ key, get key u = get_property props key).
Proof.
  intros (uid & -> & _ & _ & ->)%MatrixUser_Return_inv.
  unfold getDisplayName, get. cbn [_data set__data]. split.
  - intros Hf. replace (match data with VObject props => props | _ => ∅ end)
      with (∅ : gmap jsstring value) by by destruct data.
    split; [reflexivity|]. intros key. apply get_property_empty.
  - by intros props ->.
Qed.

Lemma MatrixUser_get_after_construction_witness :
  let u := mk (str "@a:h") (str "a") (Some (str "h")) ∅ in
  MatrixUser true (mk [] [] None ∅) (Some (str "@a:h")) VNull None = Return u
  ∧ truthy VNull = false
  ∧ get (str "room") u = Value VUndefined
  ∧ get (str "constructor") u = Builtin (str "constructor").
Proof.
  assert (MatrixUser true (mk [] [] None ∅) (Some (str "@a:h")) VNull None
          = Return (mk (str "@a:h") (str "a") (Some (str "h")) ∅)) as Hu by reflexivity.
  destruct (proj1 (MatrixUser_get_after_construction _ _ _ _ _ _ Hu) eq_refl)
    as [_ Hget].
  split_and!; [exact Hu|reflexivity|exact (Hget (str "room"))
              |exact (Hget (str "constructor"))].
Defined.

(** The display name is the entry [displayName] of the bag: what
    [setDisplayName] stores is read back by [getDisplayName] and by [get],
    what [set] stores under [displayName] is read back by [getDisplayName],
    [serialize] returns it, and the other keys are untouched. *)
Theorem MatrixUser_displayName (name : value) (this : instance) :
  getDisplayName (setDisplayName name this) = Value name
  ∧ get (str "displayName") (setDisplayName name this) = Value name
  ∧ getDisplayName (set (str "displayName") name this) = Value name
  ∧ fst (serialize (setDisplayName name this)) !! str "displayName" = Some name
  ∧ (∀ key, key ≠ str "displayName" →
       get key (setDisplayName name this) = get key this).
Proof.
  rewrite set_ordinary by discriminate.
  unfold getDisplayName, get, setDisplayName. cbn [_data set__data].
  split_and!; try apply get_property_insert.
  - rewrite serialize_unfold. cbn [fst _data set__data].
    rewrite lookup_insert_ne by discriminate. apply lookup_insert_eq.
  - intros key Hne. by apply get_property_insert_ne.
Qed.

Lemma MatrixUser_displayName_witness :
  let u := set (str "room") (VNumber (Num 7))
             (mk (str "@a:h") (str "a") (Some (str "h")) ∅) in
  str "room" ≠ str "displayName"
  ∧ get (str "room") (setDisplayName (VString (str "Ann")) u) = Value (VNumber (Num 7)).
Proof.
  split; [discriminate|].
  rewrite (proj2 (proj2 (proj2 (proj2
             (MatrixUser_displayName (VString (str "Ann"))
                (set (str "room") (VNumber (Num 7))
                   (mk (str "@a:h") (str "a") (Some (str "h")) ∅)))))))
    by discriminate.
  reflexivity.
Defined.

(** Writes compose as in a map: for keys other than [__proto__], a second
    [set] of a key replaces the first, and [set]s of different keys can be
    swapped. *)
Theorem MatrixUser_set_set (key1 key2 : jsstring) (val1 val2 : value) (this : instance) :
  key1 ≠ str "__proto__" → key2 ≠ str "__proto__" →
  set key1 val2 (set key1 val1 this) = set key1 val2 this
  ∧ (key1 ≠ key2 →
     set key1 val1 (set key2 val2 this) = set key2 val2 (set key1 val1 this)).
Proof.
  intros H1 H2. rewrite !set_ordinary by done.
  unfold set__data. cbn [_data userId localpart host]. split.
  - by rewrite insert_insert_eq.
  - intros Hne. f_equal. by apply insert_insert_ne.
Qed.

Lemma MatrixUser_set_set_witness :
  let u := mk (str "@a:h") (str "a") (Some (str "h")) ∅ in
  (str "k" ≠ str "__proto__" ∧ str "room" ≠ str "__proto__" ∧ str "k" ≠ str "room")
  ∧ set (str "k") VNull (set (str "room") (VBool true) u)
    = set (str "room") (VBool true) (set (str "k") VNull u).
Proof.
  split; [split_and!; discriminate|].
  apply (MatrixUser_set_set (str "k") (str "room") VNull (VBool true)
           (mk (str "@a:h") (str "a") (Some (str "h")) ∅)); discriminate.
Defined.

End Bag.

(** ** RemoteRoom: the data bag and reloading *)

Section RoomMore.
Import JS.

(** Reloading a persisted room: constructing again from the [getId] and
    the [serialize] of a constructed room gives the same room. *)
Theorem RemoteRoom_reload (this this' : RemoteRoom.instance)
    (identifier : option jsstring) (data : value) (room : RemoteRoom.instance) :
  RemoteRoom.RemoteRoom this identifier data = Return room →
  RemoteRoom.RemoteRoom this' (RemoteRoom.getId room) (RemoteRoom.serialize room)
    = Return room.
Proof.
  intros [= <-]. unfold RemoteRoom.RemoteRoom, RemoteRoom.getId, RemoteRoom.serialize.
  cbn [RemoteRoom.roomId RemoteRoom.data].
  destruct (truthy data) eqn:Ht; [by rewrite Ht|reflexivity].
Qed.

Lemma RemoteRoom_reload_witness :
  let room := RemoteRoom.mk (Some (str "#chan")) (VObject ∅) in
  RemoteRoom.RemoteRoom (RemoteRoom.mk None VNull) (Some (str "#chan")) VNull = Return room
  ∧ RemoteRoom.RemoteRoom (RemoteRoom.mk None VNull) (RemoteRoom.getId room)
      (RemoteRoom.serialize room) = Return room.
Proof.
  split; [reflexivity|].
  apply (RemoteRoom_reload (RemoteRoom.mk None VNull) (RemoteRoom.mk None VNull)
           (Some (str "#chan")) VNull).
  reflexivity.
Defined.

(** On a room whose data is a plain object, [set] with a key other than
    [__proto__] stores the value: [get] reads it back, the other keys read
    as before, the room id is untouched and [serialize] returns the bag with
    the new entry. *)
Theorem RemoteRoom_get_set (this : RemoteRoom.instance) (props : gmap jsstring value)
    (key : jsstring) (val : value) :
  RemoteRoom.data this = VObject props → key ≠ str "__proto__" →
  ∃ room, RemoteRoom.set key val this = Some room
    ∧ RemoteRoom.get key room = Some (Value val)
    ∧ (∀ key', key' ≠ key → RemoteRoom.get key' room = RemoteRoom.get key' this)
    ∧ RemoteRoom.getId room = RemoteRoom.getId this
    ∧ RemoteRoom.serialize room = VObject (<[key := val]> props).
Proof.
  intros Hdata Hkey. unfold RemoteRoom.set, RemoteRoom.get. rewrite Hdata.
  rewrite bool_decide_false by done. eexists. split; [reflexivity|].
  cbn [RemoteRoom.data]. split_and!; [|  |reflexivity..].
  - by rewrite get_property_insert.
  - intros key' Hne. by rewrite get_property_insert_ne.
Qed.

Lemma RemoteRoom_get_set_witness :
  let room := RemoteRoom.mk (Some (str "#chan")) (VObject ∅) in
  (RemoteRoom.data room = VObject ∅ ∧ str "topic" ≠ str "__proto__")
  ∧ ∃ room', RemoteRoom.set (str "topic") (VString (str "hi")) room = Some room'
      ∧ RemoteRoom.get (str "topic") room' = Some (Value (VString (str "hi"))).
Proof.
  split; [split; [reflexivity|discriminate]|].
  destruct (RemoteRoom_get_set (RemoteRoom.mk (Some (str "#chan")) (VObject ∅)) ∅
              (str "topic") (VString (str "hi")) eq_refl)
    as (room' & Hset & Hget & _); [discriminate|].
  exists room'. by split.
Defined.

(** The bag of a constructed room.  With a falsy [data] the room starts
    with an empty bag: [serialize] returns the empty mapping and [get] gives
    [undefined] for every key except the names that every object inherits.
    With a plain object as [data], [serialize] returns that object and [get]
    reads its properties. *)
Theorem RemoteRoom_bag_after_construction (this : RemoteRoom.instance)
    (identifier : option jsstring) (data : value) (room : RemoteRoom.instance) :
  RemoteRoom.RemoteRoom this identifier data = Return room →
  (truthy data = false →
   RemoteRoom.serialize room = VObject ∅
   ∧ ∀ key, RemoteRoom.get key room =
       Some (if bool_decide (key ∈ Object_prototype) then Builtin key
             else Value VUndefined))
  ∧ (∀ props, data = VObject props →
     RemoteRoom.serialize room = data
     ∧ ∀ key, RemoteRoom.get key room = Some (get_property props key)).
Proof.
  intros [= <-]. unfold RemoteRoom.serialize, RemoteRoom.get. cbn [RemoteRoom.data].
  split.
  - intros ->. split; [reflexivity|]. intros key. by rewrite get_property_empty.
  - by intros props ->.
Qed.

Lemma RemoteRoom_bag_after_construction_witness :
  let room := RemoteRoom.mk None (VObject ∅) in
  RemoteRoom.RemoteRoom (RemoteRoom.mk None VNull) None (VString []) = Return room
  ∧ truthy (VString []) = false
  ∧ RemoteRoom.serialize room = VObject ∅.
Proof.
  assert (RemoteRoom.RemoteRoom (RemoteRoom.mk None VNull) None (VString [])
          = Return (RemoteRoom.mk None (VObject ∅))) as Hroom by reflexivity.
  split_and!; [exact Hroom|reflexivity|].
  exact (proj1 (proj1 (RemoteRoom_bag_after_construction _ _ _ _ Hroom) eq_refl)).
Defined.

End RoomMore.
